(** * binary_playground: scalar, vector and struct summation, and its CLI

    A shallow embedding of [binary_playground.c] / [binary_playground.h].

    - [float] is IEEE-754 binary32 and [double] binary64, both carried by
      [spec_float] (the formalisation of IEEE-754 arithmetic that ships with
      the Standard Library), every operation rounding to nearest, ties to
      even, in the precision of its type (FLT_EVAL_METHOD = 0).
    - [int] is a 32-bit two's-complement integer carried by [Z]; the
      wrap-around of an overflowing addition is written out.
    - Pointers are addresses into a typed heap; the three functions of the
      arithmetic core are computations in a small state-and-failure monad
      over that heap, so that aliasing between their arguments is visible.
    - [main] returns its exit status together with the trace of what it did
      (writes to the two streams, library handles opened and closed, calls
      of the arithmetic core). *)

From Stdlib Require Import ZArith NArith List Bool Ascii String Lia.
From Stdlib Require Import Floats.SpecFloat.
From stdpp Require Import base option list gmap strings.

#[local] Open Scope Z_scope.

(** ** IEEE-754 formats *)

Module IEEE.

(** A format is its precision and the exponent of its infinities. *)
Record format := Format { prec : Z; emax : Z }.

Definition binary32_fmt : format := Format 24 128.
Definition binary64_fmt : format := Format 53 1024.

Definition binary32 := spec_float.
Definition binary64 := spec_float.

Definition add (f : format) (u v : spec_float) : spec_float :=
  SFadd (prec f) (emax f) u v.

(** [float + float] and [double + double]. *)
Definition f32_add : binary32 -> binary32 -> binary32 := add binary32_fmt.
Definition f64_add : binary64 -> binary64 -> binary64 := add binary64_fmt.

(** The floating-point number nearest to the rational [n / d] (ties to
    even), with sign [s]: one exact integer division followed by the
    rounding step of the format.  This is what a correctly rounding
    decimal-to-binary conversion computes, in the compiler for a literal
    and in [strtof] for a command-line argument. *)
Definition round_ratio (f : format) (s : bool) (n d : positive) : spec_float :=
  let '(mz, ez, lz) :=
    SFdiv_core_binary (prec f) (emax f) (Zpos n) 0 (Zpos d) 0 in
  binary_round_aux (prec f) (emax f) s mz ez lz.

(** The value [(-1)^s * m * 10^e10], correctly rounded. *)
Definition of_decimal (f : format) (s : bool) (m : N) (e10 : Z) : spec_float :=
  match m with
  | N0 => S754_zero s
  | Npos p =>
      match e10 with
      | Zneg k => round_ratio f s p (Pos.pow 10 k)
      | Z0 => round_ratio f s p 1
      | Zpos k => round_ratio f s (p * Pos.pow 10 k) 1
      end
  end.

(** The value [(-1)^s * m * 2^e2], correctly rounded. *)
Definition of_binary (f : format) (s : bool) (m : N) (e2 : Z) : spec_float :=
  match m with
  | N0 => S754_zero s
  | Npos p => binary_round (prec f) (emax f) s p e2
  end.

(** Conversion of a [float] to [double] (the default argument promotion
    of a variadic call): the value is kept, the mantissa is realigned. *)
Definition f32_to_f64 (u : binary32) : binary64 :=
  match u with
  | S754_finite s m e => binary_round (prec binary64_fmt) (emax binary64_fmt) s m e
  | _ => u
  end.

Definition is_nan (u : spec_float) : bool :=
  match u with S754_nan => true | _ => false end.

Definition is_finite (u : spec_float) : bool :=
  match u with S754_zero _ | S754_finite _ _ _ => true | _ => false end.

(** Two infinities of opposite signs, the one pair of operands without
    NaN whose sum is NaN. *)
Definition opposite_infinities (u v : spec_float) : bool :=
  match u, v with
  | S754_infinity s, S754_infinity s' => xorb s s'
  | _, _ => false
  end.

(** [u] is a number of the format, an infinity or NaN. *)
Definition valid (f : format) (u : spec_float) : bool :=
  valid_binary (prec f) (emax f) u.

Definition valid32 : binary32 -> bool := valid binary32_fmt.
Definition valid64 : binary64 -> bool := valid binary64_fmt.

End IEEE.

Import IEEE.

(** ** 32-bit [int] *)

Module Int32.

Definition modulus : Z := 2 ^ 32.
Definition min_signed : Z := - 2 ^ 31.
Definition max_signed : Z := 2 ^ 31 - 1.

Definition in_range (n : Z) : Prop := min_signed <= n <= max_signed.

(** The representative of [n] modulo [2^32] that an [int] holds. *)
Definition wrap (n : Z) : Z := (n - min_signed) mod modulus + min_signed.

(** [int + int] on the two's-complement target: the sum wraps.  (ISO C
    leaves the overflowing case undefined; the machine addition the
    statement compiles to wraps, and so does the model.) *)
Definition add (m n : Z) : Z := wrap (m + n).

End Int32.

(** ** The record of [binary_playground.h] *)

Record MyStruct := { x : Z; y : binary32; z : binary64 }.

(** ** Memory *)

(** Addresses count elements, not bytes.  A [float *] is the address of a
    cell of the [floats] component, so [v + i] is the address of [v[i]];
    a [MyStruct *] is the address of a cell of the [structs] component.
    A cell that is not allocated has no entry. *)
Definition addr := nat.

Record heap := Heap { floats : gmap nat binary32; structs : gmap nat MyStruct }.

(** Computations that read and write the heap and that have no defined
    result ([None]) when they touch a cell that is not allocated. *)
Definition C (A : Type) : Type := heap -> option (A * heap).

Definition ret {A} (v : A) : C A := fun h => Some (v, h).

Definition bind {A B} (m : C A) (k : A -> C B) : C B :=
  fun h => match m h with
           | Some (v, h') => k v h'
           | None => None
           end.

Notation "'let!' v ':=' m 'in' k" := (bind m (fun v => k))
  (at level 10, v name, m at level 100, k at level 200).
Notation "'run!' m 'in' k" := (bind m (fun _ => k))
  (at level 10, m at level 100, k at level 200).

(** [*p] for [p : float *]. *)
Definition load_float (p : addr) : C binary32 :=
  fun h => match floats h !! p with
           | Some v => Some (v, h)
           | None => None
           end.

(** [*p = v] for [p : float *]. *)
Definition store_float (p : addr) (v : binary32) : C unit :=
  fun h => match floats h !! p with
           | Some _ => Some (tt, Heap (<[p := v]> (floats h)) (structs h))
           | None => None
           end.

(** [*p] for [p : const MyStruct *]; [p->x] is [x] of it. *)
Definition load_struct (p : addr) : C MyStruct :=
  fun h => match structs h !! p with
           | Some s => Some (s, h)
           | None => None
           end.

(** ** The arithmetic core *)

(** [return a + b + c;]  The expression parses as [(a + b) + c]. *)
Definition sum_scalars (a b c : binary32) : binary32 :=
  f32_add (f32_add a b) c.

(** [for (size_t i = 0; i < len; ++i) v1[i] = v1[i] + v2[i] + v3[i];]
    with [n] the number of iterations left, [n = len - i]. *)
Fixpoint sum_vectors_loop (n : nat) (i : nat) (v1 v2 v3 : addr) : C unit :=
  match n with
  | O => ret tt
  | S n' =>
      let! e1 := load_float (v1 + i)%nat in
      let! e2 := load_float (v2 + i)%nat in
      let! e3 := load_float (v3 + i)%nat in
      run! store_float (v1 + i)%nat (f32_add (f32_add e1 e2) e3) in
      sum_vectors_loop n' (S i) v1 v2 v3
  end.

Definition sum_vectors (v1 v2 v3 : addr) (len : nat) : C unit :=
  sum_vectors_loop len 0 v1 v2 v3.

(** [out.x = s1->x + s2->x; out.y = s1->y + s2->y; out.z = s1->z + s2->z;
    return out;] *)
Definition sum_structs (s1 s2 : addr) : C MyStruct :=
  let! r1 := load_struct s1 in
  let! r2 := load_struct s2 in
  ret {| x := Int32.add (x r1) (x r2);
         y := f32_add (y r1) (y r2);
         z := f64_add (z r1) (z r2) |}.

(** ** The C library functions [main] calls *)

(** [strtof], the [%f] and [%d] conversions of [printf] and [getopt_long]
    belong to the C library, not to the program; they are modelled as the
    C standard and the GNU manual describe them, for the default locale and
    the default rounding mode. *)
Module Libc.

#[local] Open Scope N_scope.

Definition nl : string := String (ascii_of_nat 10) EmptyString.

(** *** Decimal output *)

Definition digit_char (n : N) : ascii := ascii_of_N (48 + n).

(** The decimal digits of [n] in front of [acc]; [fuel] bounds their number. *)
Fixpoint dec_digits (fuel : nat) (n : N) (acc : string) : string :=
  match fuel with
  | O => acc
  | S fuel' =>
      let acc' := String (digit_char (n mod 10)) acc in
      if n <? 10 then acc' else dec_digits fuel' (n / 10) acc'
  end.

Definition string_of_N (n : N) : string :=
  dec_digits (S (N.to_nat (N.log2 n))) n EmptyString.

(** Exactly [k] decimal digits of [n], the low ones, in front of [acc]. *)
Fixpoint fixed_digits (k : nat) (n : N) (acc : string) : string :=
  match k with
  | O => acc
  | S k' => fixed_digits k' (n / 10) (String (digit_char (n mod 10)) acc)
  end.

(** [%d]. *)
Definition format_d (n : Z) : string :=
  match n with
  | Zneg p => String "-" (string_of_N (Npos p))
  | _ => string_of_N (Z.to_N n)
  end.

(** The integer nearest to [n / d], ties to even. *)
Definition round_half_even (n d : N) : N :=
  let q := n / d in
  match 2 * (n mod d) ?= d with
  | Lt => q
  | Eq => if N.even q then q else q + 1
  | Gt => q + 1
  end.

(** [m * 2^e * 10^6] rounded to an integer: the millionths of a finite
    number, which is what six digits after the point show. *)
Definition millionths (m : positive) (e : Z) : N :=
  match e with
  | Z0 => Npos m * 1000000
  | Zpos k => Npos m * 2 ^ Npos k * 1000000
  | Zneg k => round_half_even (Npos m * 1000000) (2 ^ Npos k)
  end.

Definition sign_string (s : bool) : string :=
  if s then String "-" EmptyString else EmptyString.

(** [%f] of a [double]: the value rounded to six digits after the point.
    (A NaN carries no sign in [spec_float], and none is printed: where
    the C library writes [-nan] for a NaN whose sign bit is set, the
    model writes [nan].) *)
Definition format_f (v : binary64) : string :=
  match v with
  | S754_nan => "nan"
  | S754_infinity s => sign_string s +:+ "inf"
  | S754_zero s => sign_string s +:+ "0.000000"
  | S754_finite s m e =>
      let q := millionths m e in
      sign_string s +:+ string_of_N (q / 1000000) +:+ "." +:+
      fixed_digits 6 (q mod 1000000) EmptyString
  end.

(** *** [strtof] *)

Definition is_space (c : ascii) : bool :=
  let n := N_of_ascii c in (n =? 32) || ((9 <=? n) && (n <=? 13)).

Definition digit_of (c : ascii) : option N :=
  let n := N_of_ascii c in
  if (48 <=? n) && (n <=? 57) then Some (n - 48) else None.

Definition hex_digit_of (c : ascii) : option N :=
  let n := N_of_ascii c in
  if (48 <=? n) && (n <=? 57) then Some (n - 48)
  else if (97 <=? n) && (n <=? 102) then Some (n - 87)
  else if (65 <=? n) && (n <=? 70) then Some (n - 55)
  else None.

Definition to_lower (c : ascii) : ascii :=
  let n := N_of_ascii c in
  if (65 <=? n) && (n <=? 90) then ascii_of_N (n + 32) else c.

Fixpoint lower (s : string) : string :=
  match s with
  | EmptyString => EmptyString
  | String c s' => String (to_lower c) (lower s')
  end.

Fixpoint skip_space (s : string) : string :=
  match s with
  | String c s' => if is_space c then skip_space s' else s
  | EmptyString => s
  end.

(** The longest run of digits at the head of [s]: its value in base
    [base] on top of [acc], the number of digits, and what follows. *)
Fixpoint read_digits (dig : ascii -> option N) (base : N) (s : string)
    (acc : N) (cnt : nat) : N * nat * string :=
  match s with
  | String c s' =>
      match dig c with
      | Some d => read_digits dig base s' (base * acc + d) (S cnt)
      | None => (acc, cnt, s)
      end
  | EmptyString => (acc, cnt, s)
  end.

Definition read_sign (s : string) : bool * string :=
  match s with
  | String "-" s' => (true, s')
  | String "+" s' => (false, s')
  | _ => (false, s)
  end.

(** Digits, an optional point, digits: the digits read as one integer,
    how many there are in all, and how many stand after the point. *)
Definition read_mantissa (dig : ascii -> option N) (base : N) (s : string)
    : N * nat * nat * string :=
  let '(ip, ni, s1) := read_digits dig base s 0 O in
  match s1 with
  | String "." s2 =>
      let '(m, nf, s3) := read_digits dig base s2 ip O in
      (m, (ni + nf)%nat, nf, s3)
  | _ => (ip, ni, O, s1)
  end.

(** An exponent part introduced by [mark]; it counts only when at least
    one digit follows the optional sign, and is 0 otherwise. *)
Definition read_exponent (mark : ascii) (s : string) : Z :=
  match s with
  | String c s1 =>
      if Ascii.eqb (to_lower c) mark then
        let '(neg, s2) := read_sign s1 in
        let '(e, ne, _) := read_digits digit_of 10 s2 0 O in
        match ne with
        | O => 0%Z
        | _ => if neg then (- Z.of_N e)%Z else Z.of_N e
        end
      else 0%Z
  | EmptyString => 0%Z
  end.

(** [strtof(s, NULL)]: white space, a sign, then [inf], [nan], a
    hexadecimal or a decimal floating constant; what follows the
    longest such prefix is ignored, and without one the result is 0. *)
Definition strtof (s : string) : binary32 :=
  let '(neg, s1) := read_sign (skip_space s) in
  let low := lower s1 in
  if String.prefix "inf" low then S754_infinity neg
  else if String.prefix "nan" low then S754_nan
  else
    let hex :=
      if String.prefix "0x" low then
        let '(m, n, nf, rest) :=
          read_mantissa hex_digit_of 16 (String.substring 2 (String.length s1) s1) in
        match n with
        | O => None
        | _ => Some (of_binary binary32_fmt neg m
                       (read_exponent "p" rest - 4 * Z.of_nat nf)%Z)
        end
      else None in
    match hex with
    | Some v => v
    | None =>
        let '(m, n, nf, rest) := read_mantissa digit_of 10 s1 in
        match n with
        | O => S754_zero false
        | _ => of_decimal binary32_fmt neg m
                 (read_exponent "e" rest - Z.of_nat nf)%Z
        end
    end.

End Libc.

(** *** [getopt_long] *)

(** GNU [getopt_long] in its default mode: operands are skipped wherever
    they stand, [--] ends the options, a long option may be shortened to
    an unambiguous prefix and may carry its argument after [=], short
    options may be clustered, and every error is reported on the standard
    error stream before ['?'] is returned. *)
Module Getopt.

Inductive has_arg := no_argument | required_argument.

(** One entry of a [struct option] table whose [flag] is 0. *)
Record option_spec := { name : string; arg : has_arg; val : ascii }.

(** What one call returns while options remain: the option character
    with [optarg] (the empty string stands for the unset [optarg] of an
    option without argument), or ['?'] with the diagnostic written. *)
Inductive result :=
| Opt (o : ascii) (optarg : string)
| Err (diag : string).

Definition quoted_char (c : ascii) : string :=
  String "'" (String c (String "'" EmptyString)).

Definition diag_invalid (prog : string) (c : ascii) : string :=
  prog +:+ ": invalid option -- " +:+ quoted_char c +:+ Libc.nl.
Definition diag_short_missing (prog : string) (c : ascii) : string :=
  prog +:+ ": option requires an argument -- " +:+ quoted_char c +:+ Libc.nl.
(** The two diagnostics that quote the element as it was given, [body]
    being all that follows the two dashes, a [=value] included. *)
Definition diag_unrecognized (prog body : string) : string :=
  prog +:+ ": unrecognized option '--" +:+ body +:+ "'" +:+ Libc.nl.
Fixpoint quoted_names (names : list string) : string :=
  match names with
  | [] => EmptyString
  | nm :: names' => " '--" +:+ nm +:+ "'" +:+ quoted_names names'
  end.
Definition diag_ambiguous (prog body : string) (names : list string) : string :=
  prog +:+ ": option '--" +:+ body +:+ "' is ambiguous; possibilities:"
  +:+ quoted_names names +:+ Libc.nl.
Definition diag_no_argument (prog nm : string) : string :=
  prog +:+ ": option '--" +:+ nm +:+ "' doesn't allow an argument" +:+ Libc.nl.
Definition diag_long_missing (prog nm : string) : string :=
  prog +:+ ": option '--" +:+ nm +:+ "' requires an argument" +:+ Libc.nl.

(** The entry of [c] in an option string such as [m:ua:b:c:h]. *)
Fixpoint short_lookup (optstring : string) (c : ascii) : option has_arg :=
  match optstring with
  | EmptyString => None
  | String o rest =>
      if Ascii.eqb o c && negb (Ascii.eqb c ":") then
        Some match rest with
             | String ":" _ => required_argument
             | _ => no_argument
             end
      else short_lookup rest c
  end.

Inductive long_match :=
| Found (o : option_spec)
| Ambiguous (possibilities : list option_spec)
| Unrecognized.

Definition same_option (o1 o2 : option_spec) : bool :=
  Ascii.eqb (val o1) (val o2) &&
  match arg o1, arg o2 with
  | no_argument, no_argument | required_argument, required_argument => true
  | _, _ => false
  end.

(** An exact name wins; otherwise the entries [nm] is a prefix of must
    all be the same option. *)
Definition long_lookup (longopts : list option_spec) (nm : string) : long_match :=
  match List.find (fun o => String.eqb (name o) nm) longopts with
  | Some o => Found o
  | None =>
      match List.filter (fun o => String.prefix nm (name o)) longopts with
      | [] => Unrecognized
      | o :: os =>
          if List.forallb (same_option o) os then Found o
          else Ambiguous (o :: List.filter (fun o' => negb (same_option o o')) os)
      end
  end.

(** [name=value] split at the first [=]. *)
Fixpoint split_eq (s : string) : string * option string :=
  match s with
  | EmptyString => (EmptyString, None)
  | String "=" v => (EmptyString, Some v)
  | String c s' => let '(nm, v) := split_eq s' in (String c nm, v)
  end.

Section Scan.
Variables (prog optstring : string) (longopts : list option_spec).

(** The characters of one [-abc] element; [next] is the element that
    follows it, and the boolean tells whether it was taken as the
    argument of the last option. *)
Fixpoint scan_cluster (cs : string) (next : option string) : list result * bool :=
  match cs with
  | EmptyString => ([], false)
  | String c cs' =>
      match short_lookup optstring c with
      | None =>
          let '(rs, used) := scan_cluster cs' next in
          (Err (diag_invalid prog c) :: rs, used)
      | Some no_argument =>
          let '(rs, used) := scan_cluster cs' next in
          (Opt c EmptyString :: rs, used)
      | Some required_argument =>
          match cs', next with
          | String _ _, _ => ([Opt c cs'], false)
          | EmptyString, Some a => ([Opt c a], true)
          | EmptyString, None => ([Err (diag_short_missing prog c)], false)
          end
      end
  end.

(** One [--name] or [--name=value] element, [body] being what follows
    the two dashes. *)
Definition scan_long (body : string) (next : option string) : result * bool :=
  let '(nm, v) := split_eq body in
  match long_lookup longopts nm with
  | Unrecognized => (Err (diag_unrecognized prog body), false)
  | Ambiguous os => (Err (diag_ambiguous prog body (List.map name os)), false)
  | Found o =>
      match arg o, v, next with
      | no_argument, None, _ => (Opt (val o) EmptyString, false)
      | no_argument, Some _, _ => (Err (diag_no_argument prog (name o)), false)
      | required_argument, Some a, _ => (Opt (val o) a, false)
      | required_argument, None, Some a => (Opt (val o) a, true)
      | required_argument, None, None => (Err (diag_long_missing prog (name o)), false)
      end
  end.

(** The results of the successive calls until -1, over the elements
    after [argv[0]]; [skip] says that the first element was already
    taken as an argument. *)
Fixpoint scan (skip : bool) (args : list string) : list result :=
  match args with
  | [] => []
  | a :: rest =>
      if skip then scan false rest
      else
        match a with
        | String "-" (String "-" EmptyString) => []
        | String "-" (String "-" body) =>
            let '(r, used) := scan_long body (head rest) in
            r :: scan used rest
        | String "-" (String c cs) =>
            let '(rs, used) := scan_cluster (String c cs) (head rest) in
            rs ++ scan used rest
        | _ => scan false rest
        end
  end.

End Scan.

Definition getopt_long (prog : string) (args : list string)
    (optstring : string) (longopts : list option_spec) : list result :=
  scan prog optstring longopts false args.

End Getopt.

(** ** The dynamic loader *)

(** A shared object as [main] sees it: for each of the three symbols,
    the function [dlsym] resolves it to, if any. *)
Record library := {
  lib_sum_scalars : option (binary32 -> binary32 -> binary32 -> binary32);
  lib_sum_vectors : option (addr -> addr -> addr -> nat -> C unit);
  lib_sum_structs : option (addr -> addr -> C MyStruct)
}.

(** The environment of one run: which files [dlopen] can load, and the
    text [dlerror] gives when it cannot. *)
Record dl_env := {
  dlopen : string -> option library;
  dlerror : string
}.

(** ** What a run does *)

Inductive event :=
| Stdout (text : string)
| Stderr (text : string)
| Dlopen (libname : string) (ok : bool)
| Dlclose (libname : string)
| Call (symbol : string) (from_lib : bool).

(** ** [main] *)

Module Main.

Import Getopt.

Definition f32_lit (m : N) (e10 : Z) : binary32 := of_decimal binary32_fmt false m e10.
Definition f64_lit (m : N) (e10 : Z) : binary64 := of_decimal binary64_fmt false m e10.

(** The variables the option loop assigns. *)
Record config := {
  mode : string;
  use_lib : bool;
  a : binary32;
  b : binary32;
  c : binary32
}.

(** [mode = "scalar"], [use_lib = 0], [a = 1.0f, b = 2.0f, c = 3.0f]. *)
Definition default_config : config :=
  {| mode := "scalar"; use_lib := false;
     a := f32_lit 10 (-1); b := f32_lit 20 (-1); c := f32_lit 30 (-1) |}.

Definition set_mode (v : string) (cfg : config) : config :=
  {| mode := v; use_lib := use_lib cfg; a := a cfg; b := b cfg; c := c cfg |}.
Definition set_use_lib (v : bool) (cfg : config) : config :=
  {| mode := mode cfg; use_lib := v; a := a cfg; b := b cfg; c := c cfg |}.
Definition set_a (v : binary32) (cfg : config) : config :=
  {| mode := mode cfg; use_lib := use_lib cfg; a := v; b := b cfg; c := c cfg |}.
Definition set_b (v : binary32) (cfg : config) : config :=
  {| mode := mode cfg; use_lib := use_lib cfg; a := a cfg; b := v; c := c cfg |}.
Definition set_c (v : binary32) (cfg : config) : config :=
  {| mode := mode cfg; use_lib := use_lib cfg; a := a cfg; b := b cfg; c := v |}.

Definition optstring : string := "m:ua:b:c:h".

Definition long_options : list option_spec :=
  [ {| name := "mode"; arg := required_argument; val := "m" |};
    {| name := "use-lib"; arg := no_argument; val := "u" |};
    {| name := "a"; arg := required_argument; val := "a" |};
    {| name := "b"; arg := required_argument; val := "b" |};
    {| name := "c"; arg := required_argument; val := "c" |};
    {| name := "help"; arg := no_argument; val := "h" |} ].

Definition usage_text (prog : string) : string :=
  "Usage: " +:+ prog +:+
  " [--mode scalar|vector|struct] [--use-lib] [--a <float> --b <float> --c <float>]"
  +:+ Libc.nl.

Definition print_usage (prog : string) : list event := [Stdout (usage_text prog)].

(** The outcome of the option loop: the variables as the loop leaves
    them, or the status of the [return] inside it. *)
Inductive parsed :=
| Parsed (cfg : config)
| Returned (status : Z).

(** [while ((opt = getopt_long(...)) != -1) switch (opt) { ... }] over
    the results of the successive calls. *)
Fixpoint parse_options (prog : string) (rs : list result) (cfg : config)
    : list event * parsed :=
  match rs with
  | [] => ([], Parsed cfg)
  | Opt o optarg :: rs' =>
      if Ascii.eqb o "m" then parse_options prog rs' (set_mode optarg cfg)
      else if Ascii.eqb o "u" then parse_options prog rs' (set_use_lib true cfg)
      else if Ascii.eqb o "a" then parse_options prog rs' (set_a (Libc.strtof optarg) cfg)
      else if Ascii.eqb o "b" then parse_options prog rs' (set_b (Libc.strtof optarg) cfg)
      else if Ascii.eqb o "c" then parse_options prog rs' (set_c (Libc.strtof optarg) cfg)
      else if Ascii.eqb o "h" then (print_usage prog, Returned 0)
      else (print_usage prog, Returned 1)
  | Err diag :: _ => (Stderr diag :: print_usage prog, Returned 1)
  end.

Definition dylib_name : string := "./libbinary_playground.dylib".
Definition so_name : string := "./libbinary_playground.so".

(** [if (use_lib) { ... }]: the handle, with the name it was opened
    under, or no handle when [use_lib] is 0; [None] when [main] returns 1
    because neither file could be opened. *)
Definition load_library (env : dl_env) (use_lib : bool)
    : list event * option (option (string * library)) :=
  if use_lib then
    match dlopen env dylib_name with
    | Some l => ([Dlopen dylib_name true], Some (Some (dylib_name, l)))
    | None =>
        match dlopen env so_name with
        | Some l =>
            ([Dlopen dylib_name false; Dlopen so_name true], Some (Some (so_name, l)))
        | None =>
            ([Dlopen dylib_name false; Dlopen so_name false;
              Stderr ("Failed to open dynamic library: " +:+ dlerror env +:+ Libc.nl)],
             None)
        end
    end
  else ([], Some None).

(** [use_lib && lib_sym], with [lib_sym] the pointer [dlsym] gave, NULL
    when no library was opened. *)
Definition resolved {F : Type} (use_lib : bool) (handle : option (string * library))
    (sym : library -> option F) : option F :=
  if use_lib then
    match handle with
    | Some (_, l) => sym l
    | None => None
    end
  else None.

(** [if (handle) dlclose(handle);] *)
Definition close_handle (handle : option (string * library)) : list event :=
  match handle with
  | Some (libname, _) => [Dlclose libname]
  | None => []
  end.

Definition fmt (v : binary32) : string := Libc.format_f (f32_to_f64 v).

(** The [scalar] branch. *)
Definition run_scalar (cfg : config) (handle : option (string * library)) : list event :=
  let '(res, from_lib) :=
    match resolved (use_lib cfg) handle lib_sum_scalars with
    | Some f => (f (a cfg) (b cfg) (c cfg), true)
    | None => (sum_scalars (a cfg) (b cfg) (c cfg), false)
    end in
  [Call "sum_scalars" from_lib;
   Stdout ("sum_scalars(" +:+ fmt (a cfg) +:+ ", " +:+ fmt (b cfg) +:+ ", " +:+
           fmt (c cfg) +:+ ") = " +:+ fmt res +:+ Libc.nl)].

(** The locals of the [vector] branch: [v1] at 0, [v2] at 3, [v3] at 6. *)
Definition vector_frame : heap :=
  Heap (list_to_map
          [ (0%nat, f32_lit 10 (-1)); (1%nat, f32_lit 20 (-1)); (2%nat, f32_lit 30 (-1));
            (3%nat, f32_lit 5 (-1)); (4%nat, f32_lit 5 (-1)); (5%nat, f32_lit 5 (-1));
            (6%nat, f32_lit 1 (-1)); (7%nat, f32_lit 2 (-1)); (8%nat, f32_lit 3 (-1)) ])
       ∅.

(** [for (size_t i = 0; i < len; ++i)
      printf("%f%s", v1[i], (i+1 < len) ? ", " : "");] *)
Fixpoint print_vector_loop (n : nat) (i : nat) (v1 : addr) (len : nat) : C (list event) :=
  match n with
  | O => ret []
  | S n' =>
      let! e := load_float (v1 + i)%nat in
      let! rest := print_vector_loop n' (S i) v1 len in
      ret (Stdout (fmt e +:+ (if (i + 1 <? len)%nat then ", " else EmptyString)) :: rest)
  end.

(** The [vector] branch; no result when the library function called
    has no defined behaviour. *)
Definition run_vector (cfg : config) (handle : option (string * library))
    : option (list event) :=
  let len := 3%nat in
  let '(f, from_lib) :=
    match resolved (use_lib cfg) handle lib_sum_vectors with
    | Some f => (f, true)
    | None => (sum_vectors, false)
    end in
  match (run! f 0%nat 3%nat 6%nat len in print_vector_loop len 0 0%nat len) vector_frame with
  | Some (elems, _) =>
      Some ([Call "sum_vectors" from_lib; Stdout "sum_vectors result: ["]
            ++ elems ++ [Stdout ("]" +:+ Libc.nl)])
  | None => None
  end.

(** The locals of the [struct] branch: [s1] at 0, [s2] at 1. *)
Definition struct_frame : heap :=
  Heap ∅
       (list_to_map
          [ (0%nat, {| x := 1; y := f32_lit 25 (-1); z := f64_lit 325 (-2) |});
            (1%nat, {| x := 4; y := f32_lit 15 (-1); z := f64_lit 75 (-2) |}) ]).

(** The [struct] branch. *)
Definition run_struct (cfg : config) (handle : option (string * library))
    : option (list event) :=
  let '(f, from_lib) :=
    match resolved (use_lib cfg) handle lib_sum_structs with
    | Some f => (f, true)
    | None => (sum_structs, false)
    end in
  match f 0%nat 1%nat struct_frame with
  | Some (out, _) =>
      Some [Call "sum_structs" from_lib;
            Stdout ("sum_structs: x=" +:+ Libc.format_d (x out) +:+
                    ", y=" +:+ fmt (y out) +:+
                    ", z=" +:+ Libc.format_f (z out) +:+ Libc.nl)]
  | None => None
  end.

(** What a branch leaves to do: close the handle and [return 0]; a
    branch without defined behaviour gives no status. *)
Definition finish (handle : option (string * library)) (r : option (list event))
    : list event * option Z :=
  match r with
  | Some t => (t ++ close_handle handle, Some 0)
  | None => ([], None)
  end.

(** [if (strcmp(mode, "scalar") == 0) ... else if ... else { ... }]
    and the two statements after it. *)
Definition dispatch (prog : string) (cfg : config) (handle : option (string * library))
    : list event * option Z :=
  if String.eqb (mode cfg) "scalar" then finish handle (Some (run_scalar cfg handle))
  else if String.eqb (mode cfg) "vector" then finish handle (run_vector cfg handle)
  else if String.eqb (mode cfg) "struct" then finish handle (run_struct cfg handle)
  else
    ([Stderr ("Unknown mode '" +:+ mode cfg +:+ "'" +:+ Libc.nl)]
       ++ print_usage prog ++ close_handle handle,
     Some 1).

(** [main], for [argv[0] = prog] and [argv[1..] = args]: the trace of
    the run and the exit status. *)
Definition main (prog : string) (args : list string) (env : dl_env)
    : list event * option Z :=
  let '(t1, p) :=
    parse_options prog (getopt_long prog args optstring long_options) default_config in
  match p with
  | Returned status => (t1, Some status)
  | Parsed cfg =>
      let '(t2, loaded) := load_library env (use_lib cfg) in
      match loaded with
      | None => (t1 ++ t2, Some 1)
      | Some handle =>
          let '(t3, status) := dispatch prog cfg handle in
          (t1 ++ t2 ++ t3, status)
      end
  end.

(** What the run wrote to the standard output stream. *)
Fixpoint stdout_of (t : list event) : string :=
  match t with
  | [] => EmptyString
  | Stdout s :: t' => s +:+ stdout_of t'
  | _ :: t' => stdout_of t'
  end.

(** What the run wrote to the standard error stream. *)
Fixpoint stderr_of (t : list event) : string :=
  match t with
  | [] => EmptyString
  | Stderr s :: t' => s +:+ stderr_of t'
  | _ :: t' => stderr_of t'
  end.

(** A run without any loadable library. *)
Definition no_library : dl_env :=
  {| dlopen := fun _ => None; dlerror := "cannot open shared object file" |}.

End Main.

(** * Specification vocabulary *)

Module Spec.

#[local] Open Scope nat_scope.

(** The [len] elements at [v] are allocated: [v] points to a sequence of
    at least [len] elements. *)
Definition allocated (h : heap) (v : addr) (len : nat) : Prop :=
  forall i, i < len -> is_Some (floats h !! (v + i)).

(** Address [p] is one of [v1[0]], ..., [v1[len-1]]. *)
Definition within (v1 : addr) (len : nat) (p : addr) : Prop :=
  v1 <= p < v1 + len.

(** The sequences at [v1] and at [v] share no element. *)
Definition separate (v1 v : addr) (len : nat) : Prop :=
  v1 + len <= v \/ v + len <= v1.

(** No element [v[i]] is an element [v1[j]] with [j < i], that is, none
    is read after the loop has overwritten it.  Sequences that share no
    element satisfy this, and so does [v = v1]. *)
Definition read_before_written (v1 v : addr) (len : nat) : Prop :=
  v1 <= v \/ v + len <= v1.

(** In [h'], each [v1[i]] with [i < len] holds the sum of what [v1[i]],
    [v2[i]] and [v3[i]] hold in [h]. *)
Definition elementwise_sum (h h' : heap) (v1 v2 v3 : addr) (len : nat) : Prop :=
  forall i e1 e2 e3,
    i < len ->
    floats h !! (v1 + i) = Some e1 ->
    floats h !! (v2 + i) = Some e2 ->
    floats h !! (v3 + i) = Some e3 ->
    floats h' !! (v1 + i) = Some (f32_add (f32_add e1 e2) e3).

(** The [len] elements at [v] hold the same in [h] and [h']. *)
Definition same_contents (h h' : heap) (v : addr) (len : nat) : Prop :=
  forall i, i < len -> floats h' !! (v + i) = floats h !! (v + i).

(** The elements of [v1] at the indices from [len] on hold the same. *)
Definition same_beyond (h h' : heap) (v1 : addr) (len : nat) : Prop :=
  forall j, len <= j -> floats h' !! (v1 + j) = floats h !! (v1 + j).

(** Every cell that is not one of [v1[0]], ..., [v1[len-1]] holds the same. *)
Definition same_outside (h h' : heap) (v1 : addr) (len : nat) : Prop :=
  structs h' = structs h /\
  forall p, ~ within v1 len p -> floats h' !! p = floats h !! p.

(** [n] and [m] are the same integer modulo [2^32]. *)
Definition congruent (n m : Z) : Prop := ((n - m) mod Int32.modulus = 0)%Z.

End Spec.

Import Spec.

(** ** Concrete memories for [sum_vectors] *)

Module VectorExamples.

#[local] Open Scope nat_scope.

Definition f32_of_nat (n : N) : binary32 := of_decimal binary32_fmt false n 0.

(** Five cells holding 1, 2, 4, 0, 0. *)
Definition five_cells : heap :=
  Heap (list_to_map [ (0, f32_of_nat 1); (1, f32_of_nat 2); (2, f32_of_nat 4);
                      (3, f32_of_nat 0); (4, f32_of_nat 0) ]) ∅.

(** Two cells holding 1 and 0. *)
Definition two_cells : heap :=
  Heap (list_to_map [ (0, f32_of_nat 1); (1, f32_of_nat 0) ]) ∅.

(** What cell [p] holds after a run. *)
Definition cell_after (p : addr) (r : option (unit * heap)) : option binary32 :=
  match r with
  | Some (_, h') => floats h' !! p
  | None => None
  end.

End VectorExamples.

(** ** Vocabulary for the runs of [main] *)

Module RunSpec.

Import Getopt Main.

(** The argument of the last occurrence of option [o] among the results
    of [getopt_long], if it occurs at all. *)
Fixpoint last_optarg (o : ascii) (rs : list result) : option string :=
  match rs with
  | [] => None
  | Opt o' optarg :: rs' =>
      match last_optarg o rs' with
      | Some v => Some v
      | None => if Ascii.eqb o' o then Some optarg else None
      end
  | Err _ :: rs' => last_optarg o rs'
  end.

(** Result [r] is not an occurrence of option [o]. *)
Definition other_option (o : ascii) (r : result) : Prop :=
  match r with
  | Opt o' _ => o' <> o
  | Err _ => True
  end.

(** The string the last occurrence gives, or [d] without occurrence. *)
Definition last_string (d : string) (o : ascii) (rs : list result) : string :=
  match last_optarg o rs with
  | Some v => v
  | None => d
  end.

(** The [float] the last occurrence gives, or [d] without occurrence. *)
Definition last_float (d : binary32) (o : ascii) (rs : list result) : binary32 :=
  match last_optarg o rs with
  | Some v => Libc.strtof v
  | None => d
  end.

(** Option [o] occurs among the results. *)
Definition occurs (o : ascii) (rs : list result) : bool :=
  match last_optarg o rs with
  | Some _ => true
  | None => false
  end.

(** The variables as the last occurrences leave them, from [cfg0]. *)
Definition final_config (cfg0 : config) (rs : list result) : config :=
  {| mode := last_string (mode cfg0) "m" rs;
     use_lib := use_lib cfg0 || occurs "u" rs;
     a := last_float (a cfg0) "a" rs;
     b := last_float (b cfg0) "b" rs;
     c := last_float (c cfg0) "c" rs |}.

(** What [main] does once the option loop has left [cfg]. *)
Definition after_options (prog : string) (cfg : config) (env : dl_env)
    : list event * option Z :=
  let '(t2, loaded) := load_library env (use_lib cfg) in
  match loaded with
  | None => (t2, Some 1)
  | Some handle =>
      let '(t3, status) := dispatch prog cfg handle in
      (t2 ++ t3, status)
  end.

Definition is_handle_event (e : event) : bool :=
  match e with
  | Dlopen _ true | Dlclose _ => true
  | _ => false
  end.

(** The handles acquired and released during a run, in order. *)
Definition handle_events (t : list event) : list event :=
  List.filter is_handle_event t.

Definition is_call (e : event) : bool :=
  match e with
  | Call _ _ => true
  | _ => false
  end.

(** The calls of the arithmetic core during a run, in order. *)
Definition calls (t : list event) : list event := List.filter is_call t.

(** [mode] is none of the three modes. *)
Definition unknown_mode (m : string) : Prop :=
  m <> "scalar" /\ m <> "vector" /\ m <> "struct".

(** The two lines of the unknown-mode branch. *)
Definition unknown_mode_report (prog m : string) : list event :=
  [Stderr ("Unknown mode '" +:+ m +:+ "'" +:+ Libc.nl); Stdout (usage_text prog)].

(** A shared object that exports [sum_scalars] only. *)
Definition scalar_only_library : library :=
  {| lib_sum_scalars := Some sum_scalars;
     lib_sum_vectors := None;
     lib_sum_structs := None |}.

(** A directory that holds [libbinary_playground.so] and no [.dylib]. *)
Definition so_present : dl_env :=
  {| dlopen := fun file => if String.eqb file so_name then Some scalar_only_library else None;
     dlerror := "cannot open shared object file" |}.

(** The lines the specification expects from the two scenarios. *)
Definition scalar_line_expected : string :=
  "sum_scalars(1.200000, 3.400000, 5.600000) = 10.200000".
Definition vector_line_expected : string :=
  "sum_vectors result: [1.600000, 2.700000, 3.400000]".

(** What the [vector] branch writes, call by call. *)
Definition vector_trace : list event :=
  [Call "sum_vectors" false; Stdout "sum_vectors result: [";
   Stdout "1.600000, "; Stdout "2.700000, "; Stdout "3.800000";
   Stdout ("]" +:+ Libc.nl)].

(** The lines the program prints. *)
Definition scalar_line : string :=
  "sum_scalars(1.200000, 3.400000, 5.600000) = 10.200001".
Definition vector_line : string :=
  "sum_vectors result: [1.600000, 2.700000, 3.800000]".

Definition scalar_args : list string :=
  ["--mode"; "scalar"; "--a"; "1.2"; "--b"; "3.4"; "--c"; "5.6"].
Definition vector_args : list string := ["--mode"; "vector"].

End RunSpec.

(** ** Vocabulary for further properties *)

Module MoreSpec.

Import Getopt Main RunSpec.

#[local] Open Scope nat_scope.

(** The elements of [l] stand at [v], [v + 1], ... in [h]. *)
Definition holds (h : heap) (v : addr) (l : list binary32) : Prop :=
  forall i e, l !! i = Some e -> floats h !! (v + i) = Some e.

(** Every [float] cell of [h] holds a binary32 number, an infinity or NaN. *)
Definition all_valid (h : heap) : Prop :=
  map_Forall (fun _ e => valid32 e = true) (floats h).

(** The memory a run leaves, [d] when it leaves none. *)
Definition heap_after (r : option (unit * heap)) (d : heap) : heap :=
  match r with
  | Some (_, h') => h'
  | None => d
  end.

(** The fields of [r] are values of their C types. *)
Definition valid_record (r : MyStruct) : Prop :=
  Int32.in_range (x r) /\ valid32 (y r) = true /\ valid64 (z r) = true.

(** [h] and [h'] have the same cells allocated. *)
Definition same_cells (h h' : heap) : Prop :=
  forall p, is_Some (floats h' !! p) <-> is_Some (floats h !! p).

(** A result of [getopt_long] that the [switch] handles without leaving
    the loop: one of the options [m], [u], [a], [b], [c]. *)
Definition accepted (r : result) : Prop :=
  match r with
  | Opt o _ => o = "m"%char \/ o = "u"%char \/ o = "a"%char \/ o = "b"%char \/ o = "c"%char
  | Err _ => False
  end.

(** The function the dispatch calls in mode [m]. *)
Definition mode_symbol (m : string) : string := "sum_" +:+ m +:+ "s".

Definition is_stdout (e : event) : Prop :=
  match e with
  | Stdout _ => True
  | _ => False
  end.

(** The attempts to open [file] during a run. *)
Definition attempts (file : string) (t : list event) : list event :=
  List.filter (fun e => match e with
                        | Dlopen libname _ => String.eqb libname file
                        | _ => false
                        end) t.

(** The library exports nothing that mode [m] would call. *)
Definition lacks_symbol (m : string) (l : library) : Prop :=
  (m = "scalar" -> lib_sum_scalars l = None) /\
  (m = "vector" -> lib_sum_vectors l = None) /\
  (m = "struct" -> lib_sum_structs l = None).

(** A shared object that exports none of the three symbols. *)
Definition empty_library : library :=
  {| lib_sum_scalars := None; lib_sum_vectors := None; lib_sum_structs := None |}.

(** A directory that holds such a [libbinary_playground.dylib]. *)
Definition dylib_present : dl_env :=
  {| dlopen := fun file => if String.eqb file dylib_name then Some empty_library else None;
     dlerror := "cannot open shared object file" |}.

(** The line of the [scalar] branch for the inputs [a], [b], [c] and the
    result [res]. *)
Definition scalar_report (a b c res : binary32) : string :=
  "sum_scalars(" +:+ fmt a +:+ ", " +:+ fmt b +:+ ", " +:+ fmt c +:+ ") = "
  +:+ fmt res +:+ Libc.nl.

(** The line of the [struct] branch. *)
Definition struct_line : string := "sum_structs: x=5, y=4.000000, z=4.000000".

End MoreSpec.

(** * Properties of the arithmetic core *)

(** ** Facts about the addition of a format *)

Section Addition.

Variable f : format.

Lemma add_nan_l (v : spec_float) : add f S754_nan v = S754_nan.
Proof. reflexivity. Qed.

Lemma add_nan_r (u : spec_float) : add f u S754_nan = S754_nan.
Proof. by destruct u. Qed.

(** An infinity absorbs every finite number. *)
Lemma add_infinity_finite (s : bool) (v : spec_float) :
  is_finite v = true -> add f (S754_infinity s) v = S754_infinity s.
Proof. by destruct v. Qed.

Lemma add_finite_infinity (s : bool) (u : spec_float) :
  is_finite u = true -> add f u (S754_infinity s) = S754_infinity s.
Proof. by destruct u. Qed.

(** Infinities of opposite signs have no sum. *)
Lemma add_opposite_infinities (s : bool) :
  add f (S754_infinity s) (S754_infinity (negb s)) = S754_nan.
Proof. by destruct s. Qed.

End Addition.

(** *** Rounding never invents a NaN *)

Section Rounding.

Variables (p e : Z).

Lemma iter_pos_invariant {A : Type} (P : A -> Prop) (g : A -> A) :
  (forall v, P v -> P (g v)) -> forall n v, P v -> P (SpecFloat.iter_pos g n v).
Proof.
  intros Hg. induction n as [n IH|n IH|]; intros v Hv; simpl; auto.
Qed.

Lemma shr_1_nonneg (mrs : shr_record) : 0 <= shr_m mrs -> 0 <= shr_m (shr_1 mrs).
Proof.
  destruct mrs as [m r s]. simpl. intros Hm.
  destruct m as [|[q|q|]|[q|q|]]; simpl; lia.
Qed.

Lemma shr_nonneg (mrs : shr_record) (ex n : Z) :
  0 <= shr_m mrs -> 0 <= shr_m (shr mrs ex n).1.
Proof.
  intros Hm. destruct n as [|n|n]; simpl; auto.
  apply (iter_pos_invariant (fun r => 0 <= shr_m r)); auto using shr_1_nonneg.
Qed.

Lemma shr_fexp_nonneg (m ex : Z) (l : location) :
  0 <= m -> 0 <= shr_m (shr_fexp p e m ex l).1.
Proof.
  intros Hm. unfold shr_fexp. apply shr_nonneg.
  by destruct l as [|[]].
Qed.

Lemma round_nearest_even_nonneg (m : Z) (l : location) :
  0 <= m -> 0 <= round_nearest_even m l.
Proof.
  intros Hm. destruct l as [|[]]; simpl; try lia.
  destruct (Z.even m); lia.
Qed.

Lemma binary_round_aux_not_nan (sx : bool) (mx ex : Z) (lx : location) :
  0 <= mx -> is_nan (binary_round_aux p e sx mx ex lx) = false.
Proof.
  intros Hm. unfold binary_round_aux.
  pose proof (shr_fexp_nonneg mx ex lx Hm) as H1.
  destruct (shr_fexp p e mx ex lx) as [mrs' e']. simpl in H1.
  pose proof (shr_fexp_nonneg _ e' loc_Exact
                (round_nearest_even_nonneg _ (loc_of_shr_record mrs') H1)) as H2.
  destruct (shr_fexp p e _ e' loc_Exact) as [mrs'' e'']. simpl in H2.
  destruct (shr_m mrs'') as [|q|q]; [reflexivity| |lia].
  by destruct (e'' <=? e - p).
Qed.

Lemma binary_normalize_not_nan (m ex : Z) (szero : bool) :
  is_nan (binary_normalize p e m ex szero) = false.
Proof.
  destruct m as [|q|q]; simpl; [reflexivity| |];
    unfold binary_round; destruct (shl_align _ _ _) as [mz ez];
    by apply binary_round_aux_not_nan.
Qed.

End Rounding.

(** *** Rounding stays in the format *)

Section Canonical.

Variables (p e : Z).
Hypothesis Hp : 0 < p.

Lemma fexp_monotone (k k' : Z) : k <= k' -> fexp p e k <= fexp p e k'.
Proof. unfold fexp. lia. Qed.

Lemma fexp_ge_emin (k : Z) : emin p e <= fexp p e k.
Proof. unfold fexp. lia. Qed.

(** An exponent at or above its own [fexp] can only be [emin]. *)
Lemma fexp_small (k : Z) : k <= fexp p e k -> fexp p e k = emin p e.
Proof. unfold fexp. lia. Qed.

Lemma digits2_pos_size (m : positive) : digits2_pos m = Pos.size m.
Proof. induction m as [m IH|m IH|]; simpl; by rewrite ?IH. Qed.

Lemma Zdigits2_nonneg (m : Z) : 0 <= Zdigits2 m.
Proof. destruct m; simpl; lia. Qed.

Lemma Zdigits2_pos (m : Z) : 0 < m -> 0 < Zdigits2 m.
Proof. destruct m; simpl; lia. Qed.

(** [m] has [Zdigits2 m] binary digits. *)
Lemma Zdigits2_bounds (m : positive) :
  2 ^ (Zdigits2 (Zpos m) - 1) <= Zpos m < 2 ^ Zdigits2 (Zpos m).
Proof.
  change (Zdigits2 (Zpos m)) with (Zpos (digits2_pos m)). rewrite digits2_pos_size.
  pose proof (Pos.size_gt m) as Hgt. pose proof (Pos.size_le m) as Hle.
  apply Pos2Z.pos_lt_pos in Hgt. apply Pos2Z.pos_le_pos in Hle.
  rewrite Pos2Z.inj_pow in Hgt, Hle.
  replace (Z.pos (Pos.size m)) with (Z.succ (Z.pos (Pos.size m) - 1)) in Hle by lia.
  rewrite Z.pow_succ_r in Hle by lia.
  change (Z.pos m~0) with (2 * Z.pos m) in Hle. lia.
Qed.

Lemma Zdigits2_monotone (m m' : Z) : 0 <= m <= m' -> Zdigits2 m <= Zdigits2 m'.
Proof.
  intros [H0 Hle]. destruct m as [|m|m]; [apply Zdigits2_nonneg| |lia].
  destruct m' as [|m'|m']; [lia| |lia].
  pose proof (Zdigits2_bounds m) as [Hlo _].
  pose proof (Zdigits2_bounds m') as [_ Hhi].
  assert (2 ^ (Zdigits2 (Z.pos m) - 1) < 2 ^ Zdigits2 (Z.pos m')) as Hpow by lia.
  apply Z.pow_lt_mono_r_iff in Hpow; [lia|lia|apply Zdigits2_nonneg].
Qed.

(** One halving takes one digit away. *)
Lemma shr_1_digits (mrs : shr_record) :
  0 <= shr_m mrs ->
  0 <= shr_m (shr_1 mrs) /\
  Zdigits2 (shr_m (shr_1 mrs)) = Z.max 0 (Zdigits2 (shr_m mrs) - 1).
Proof.
  destruct mrs as [m r s]. simpl. intros Hm.
  destruct m as [|[q|q|]|[q|q|]]; simpl; lia.
Qed.

Lemma iter_shr_1_digits (n : positive) (mrs : shr_record) :
  0 <= shr_m mrs ->
  0 <= shr_m (SpecFloat.iter_pos shr_1 n mrs) /\
  Zdigits2 (shr_m (SpecFloat.iter_pos shr_1 n mrs))
    = Z.max 0 (Zdigits2 (shr_m mrs) - Zpos n).
Proof.
  revert mrs. induction n as [n IH|n IH|]; intros mrs Hm; simpl.
  - destruct (shr_1_digits mrs Hm) as [H1 E1].
    destruct (IH _ H1) as [H2 E2]. destruct (IH _ H2) as [H3 E3].
    split; [exact H3|]. rewrite E3, E2, E1. lia.
  - destruct (IH _ Hm) as [H2 E2]. destruct (IH _ H2) as [H3 E3].
    split; [exact H3|]. rewrite E3, E2. lia.
  - apply shr_1_digits, Hm.
Qed.

(** Shifting a mantissa whose exponent is not above its [fexp] brings
    the exponent to it; what is left of the mantissa is canonical, and
    when nothing is left the exponent is [emin]. *)
Lemma shr_fexp_canonical (m ex : Z) (l : location) :
  0 <= m -> ex <= fexp p e (Zdigits2 m + ex) ->
  let r := shr_fexp p e m ex l in
  0 <= shr_m r.1 /\
  (0 < shr_m r.1 -> fexp p e (Zdigits2 (shr_m r.1) + r.2) = r.2) /\
  (shr_m r.1 = 0 -> r.2 = emin p e) /\
  (0 < shr_m r.1 -> emin p e <= r.2).
Proof.
  intros Hm Hex. unfold shr_fexp, shr.
  assert (shr_m (shr_record_of_loc m l) = m) as Hrec by (by destruct l as [|[]]).
  destruct (fexp p e (Zdigits2 m + ex) - ex) as [|n|n] eqn:Hn; simpl.
  - rewrite Hrec. split; [exact Hm|]. split; [lia|]. split.
    + intros ->. simpl in *. rewrite Z.add_0_l in *.
      pose proof (fexp_small ex Hex). lia.
    + intros _. pose proof (fexp_ge_emin (Zdigits2 m + ex)). lia.
  - destruct (iter_shr_1_digits n (shr_record_of_loc m l)) as [H1 E1];
      [by rewrite Hrec|].
    rewrite Hrec in E1. split; [exact H1|].
    assert (ex + Z.pos n = fexp p e (Zdigits2 m + ex)) as Hsum by lia.
    split; [|split].
    + intros Hpos. apply Zdigits2_pos in Hpos. rewrite E1 in *.
      rewrite Hsum. f_equal. lia.
    + intros Hz. rewrite Hz in E1. simpl in E1.
      rewrite Hsum. apply fexp_small. lia.
    + intros _. rewrite Hsum. apply fexp_ge_emin.
  - lia.
Qed.

(** The rounding step returns a number of the format. *)
Lemma binary_round_aux_valid (sx : bool) (mx ex : Z) (lx : location) :
  0 <= mx -> ex <= fexp p e (Zdigits2 mx + ex) ->
  valid_binary p e (binary_round_aux p e sx mx ex lx) = true.
Proof.
  intros Hm Hex. unfold binary_round_aux.
  pose proof (shr_fexp_canonical mx ex lx Hm Hex) as (H1 & C1 & Z1 & B1).
  destruct (shr_fexp p e mx ex lx) as [mrs' e']. simpl in H1, C1, Z1, B1.
  set (m1 := round_nearest_even (shr_m mrs') (loc_of_shr_record mrs')).
  assert (shr_m mrs' <= m1 <= shr_m mrs' + 1) as Hm1.
  { unfold m1. destruct (loc_of_shr_record mrs') as [|[]]; simpl; try lia.
    destruct (Z.even (shr_m mrs')); lia. }
  assert (e' <= fexp p e (Zdigits2 m1 + e')) as Hex'.
  { destruct (decide (shr_m mrs' = 0)) as [Hz|Hnz].
    - rewrite (Z1 Hz). apply fexp_ge_emin.
    - rewrite <- C1 at 1 by lia. apply fexp_monotone.
      pose proof (Zdigits2_monotone (shr_m mrs') m1). lia. }
  pose proof (shr_fexp_canonical m1 e' loc_Exact ltac:(lia) Hex') as (H2 & C2 & _ & _).
  destruct (shr_fexp p e m1 e' loc_Exact) as [mrs'' e'']. simpl in H2, C2.
  destruct (shr_m mrs'') as [|q|q] eqn:Hq; [reflexivity| |reflexivity].
  destruct (e'' <=? e - p) eqn:Hle; [|reflexivity].
  simpl. unfold bounded, canonical_mantissa. rewrite Hle, andb_true_r.
  apply Z.eqb_eq. apply C2. lia.
Qed.

Lemma shl_align_digits (mx : positive) (ex ex' : Z) :
  let r := shl_align mx ex ex' in
  r.2 <= ex' /\ Zpos (digits2_pos r.1) + r.2 = Zpos (digits2_pos mx) + ex.
Proof.
  unfold shl_align. destruct (ex' - ex) as [|d|d] eqn:Hd; simpl; try lia.
  split; [lia|].
  assert (Zpos (digits2_pos (Pos.iter xO mx d)) = Zpos (digits2_pos mx) + Zpos d) as ->; [|lia].
  apply (Pos.iter_ind _ xO mx
           (fun d r => Zpos (digits2_pos r) = Zpos (digits2_pos mx) + Zpos d)).
  - simpl. lia.
  - intros d' r IH. simpl. lia.
Qed.

Lemma binary_round_valid (sx : bool) (mx : positive) (ex : Z) :
  valid_binary p e (binary_round p e sx mx ex) = true.
Proof.
  unfold binary_round.
  pose proof (shl_align_digits mx ex (fexp p e (Zpos (digits2_pos mx) + ex))) as [Hle Hsum].
  destruct (shl_align mx ex _) as [mz ez]. simpl in Hle, Hsum.
  apply binary_round_aux_valid; [lia|].
  simpl. by rewrite Hsum.
Qed.

Lemma binary_normalize_valid (m ex : Z) (szero : bool) :
  valid_binary p e (binary_normalize p e m ex szero) = true.
Proof. destruct m; simpl; auto using binary_round_valid. Qed.

End Canonical.

(** The sum of two numbers of a format is a number of the format, an
    infinity or NaN. *)
Lemma add_valid (f : format) (u v : spec_float) :
  0 < prec f -> valid f u = true -> valid f v = true -> valid f (add f u v) = true.
Proof.
  intros Hp Hu Hv. unfold valid, add in *.
  destruct u as [s|s| |s m ex], v as [s'|s'| |s' m' ex']; try done;
    try (by destruct s, s').
  simpl. by apply binary_normalize_valid.
Qed.

(** The sum is NaN exactly when an operand is, or when the operands are
    infinities of opposite signs. *)
Lemma add_nan_iff (f : format) (u v : spec_float) :
  is_nan (add f u v) = is_nan u || is_nan v || opposite_infinities u v.
Proof.
  destruct u as [s|s| |s m ex], v as [s'|s'| |s' m' ex']; try reflexivity;
    try (by destruct s, s').
  unfold add. simpl. apply binary_normalize_not_nan.
Qed.

(** ** [sum_scalars] *)

(** C2. For every three [float] inputs, finite or not, [sum_scalars a b c]
    is the binary32 sum evaluated left to right, [(a + b) + c]; it is
    defined on every input, and its result is NaN exactly when the
    standard says so: when an input is NaN, or when an addition meets
    two infinities of opposite signs. *)
Theorem sum_scalars_left_to_right (a b c : binary32) :
  sum_scalars a b c = f32_add (f32_add a b) c /\
  is_nan (sum_scalars a b c) =
    is_nan a || is_nan b || is_nan c
    || opposite_infinities a b || opposite_infinities (f32_add a b) c.
Proof.
  split; [reflexivity|].
  unfold sum_scalars, f32_add. rewrite !add_nan_iff.
  destruct (is_nan a), (is_nan b), (is_nan c), (opposite_infinities a b);
    reflexivity.
Qed.

(** A NaN in any position gives NaN. *)
Corollary sum_scalars_nan (a b c : binary32) :
  sum_scalars S754_nan b c = S754_nan /\
  sum_scalars a S754_nan c = S754_nan /\
  sum_scalars a b S754_nan = S754_nan.
Proof.
  unfold sum_scalars, f32_add. rewrite !add_nan_r, !add_nan_l. auto.
Qed.

(** X2. Given binary32 numbers, [sum_scalars] returns a binary32 number:
    its result is a number of the format, an infinity or NaN. *)
Corollary sum_scalars_valid (a b c : binary32) :
  valid32 a = true -> valid32 b = true -> valid32 c = true ->
  valid32 (sum_scalars a b c) = true.
Proof.
  intros Ha Hb Hc. unfold sum_scalars, f32_add, valid32.
  apply add_valid; [done| |done]. by apply add_valid.
Qed.

(** X3. Finite inputs never give NaN: at worst the sum overflows to an
    infinity. *)
Corollary sum_scalars_finite (a b c : binary32) :
  is_finite a = true -> is_finite b = true -> is_finite c = true ->
  is_nan (sum_scalars a b c) = false.
Proof.
  intros Ha Hb Hc.
  unfold sum_scalars, f32_add. rewrite !add_nan_iff.
  assert (forall u v, is_finite v = true -> opposite_infinities u v = false) as Hopp
    by (intros [] []; done).
  rewrite !Hopp by done.
  by destruct a, b, c.
Qed.

(** The grouping matters: summed right to left, [1 + 2^24 + (-2^24)]
    gives 1, and left to right it gives 0. *)
Example sum_scalars_not_right_to_left :
  let one := S754_finite false 8388608 (-23) in
  let big := S754_finite false 8388608 1 in
  let neg_big := S754_finite true 8388608 1 in
  sum_scalars one big neg_big = S754_zero false /\
  f32_add one (f32_add big neg_big) = one.
Proof. split; reflexivity. Qed.

(** An infinite first argument with finite others comes back unchanged. *)
Lemma sum_scalars_infinity (s : bool) (b c : binary32) :
  is_finite b = true -> is_finite c = true ->
  sum_scalars (S754_infinity s) b c = S754_infinity s.
Proof.
  intros Hb Hc. unfold sum_scalars, f32_add.
  by rewrite !add_infinity_finite.
Qed.

(** ** Memory lemmas *)

Section Memory.

#[local] Open Scope nat_scope.

Lemma load_float_Some (h : heap) (p : addr) (v : binary32) :
  floats h !! p = Some v -> load_float p h = Some (v, h).
Proof. intros E. unfold load_float. by rewrite E. Qed.

Lemma store_float_Some (h : heap) (p : addr) (v : binary32) :
  is_Some (floats h !! p) ->
  store_float p v h = Some (tt, Heap (<[p := v]> (floats h)) (structs h)).
Proof. intros [w E]. unfold store_float. by rewrite E. Qed.

Lemma allocated_after_store (m : gmap nat binary32) (p q : addr) (v : binary32) :
  is_Some (m !! q) -> is_Some (<[p := v]> m !! q).
Proof.
  intros Hq. destruct (decide (p = q)) as [->|Hne].
  - rewrite lookup_insert_eq. eauto.
  - by rewrite lookup_insert_ne.
Qed.

End Memory.

(** ** [sum_vectors] *)

Section SumVectors.

#[local] Open Scope nat_scope.

Variables v1 v2 v3 : addr.

(** The loop runs to its end when the elements it touches are allocated,
    and it leaves every cell but [v1[i]], ..., [v1[i+n-1]] as it was. *)
Lemma sum_vectors_loop_frame (n i : nat) (h : heap) :
  (forall k, i <= k < i + n -> is_Some (floats h !! (v1 + k))) ->
  (forall k, i <= k < i + n -> is_Some (floats h !! (v2 + k))) ->
  (forall k, i <= k < i + n -> is_Some (floats h !! (v3 + k))) ->
  exists h',
    sum_vectors_loop n i v1 v2 v3 h = Some (tt, h') /\
    structs h' = structs h /\
    (forall p, is_Some (floats h !! p) -> is_Some (floats h' !! p)) /\
    (forall p, ~ (v1 + i <= p < v1 + i + n) -> floats h' !! p = floats h !! p).
Proof.
  revert i h. induction n as [|n IH]; intros i h A1 A2 A3.
  - exists h. simpl. unfold ret. auto.
  - destruct (A1 i) as [e1 E1]; [lia|].
    destruct (A2 i) as [e2 E2]; [lia|].
    destruct (A3 i) as [e3 E3]; [lia|].
    set (w := f32_add (f32_add e1 e2) e3).
    set (h1 := Heap (<[v1 + i := w]> (floats h)) (structs h)).
    destruct (IH (S i) h1) as (h' & Hrun & Hs & Hal & Hfr).
    + intros k Hk. simpl. apply allocated_after_store, A1. lia.
    + intros k Hk. simpl. apply allocated_after_store, A2. lia.
    + intros k Hk. simpl. apply allocated_after_store, A3. lia.
    + exists h'. split; [|split; [|split]].
      * simpl. unfold bind at 1. rewrite (load_float_Some _ _ _ E1).
        unfold bind at 1. rewrite (load_float_Some _ _ _ E2).
        unfold bind at 1. rewrite (load_float_Some _ _ _ E3).
        unfold bind at 1. rewrite store_float_Some by eauto.
        exact Hrun.
      * by rewrite Hs.
      * intros p Hp. apply Hal. simpl. by apply allocated_after_store.
      * intros p Hp. rewrite Hfr by lia. simpl.
        apply lookup_insert_ne. lia.
Qed.

(** When, in addition, no element of [v2] or [v3] is read after it was
    overwritten, each [v1[k]] ends as the sum of the original elements. *)
Lemma sum_vectors_loop_sums (n i : nat) (h : heap) :
  (forall k, i <= k < i + n -> is_Some (floats h !! (v1 + k))) ->
  (forall k, i <= k < i + n -> is_Some (floats h !! (v2 + k))) ->
  (forall k, i <= k < i + n -> is_Some (floats h !! (v3 + k))) ->
  read_before_written v1 v2 (i + n) ->
  read_before_written v1 v3 (i + n) ->
  forall h', sum_vectors_loop n i v1 v2 v3 h = Some (tt, h') ->
  forall k e1 e2 e3,
    i <= k < i + n ->
    floats h !! (v1 + k) = Some e1 ->
    floats h !! (v2 + k) = Some e2 ->
    floats h !! (v3 + k) = Some e3 ->
    floats h' !! (v1 + k) = Some (f32_add (f32_add e1 e2) e3).
Proof.
  revert i h. induction n as [|n IH]; intros i h A1 A2 A3 R2 R3 h' Hrun k e1 e2 e3 Hk E1 E2 E3.
  - lia.
  - destruct (A1 i) as [a1 F1]; [lia|].
    destruct (A2 i) as [a2 F2]; [lia|].
    destruct (A3 i) as [a3 F3]; [lia|].
    simpl in Hrun.
    unfold bind at 1 in Hrun. rewrite (load_float_Some _ _ _ F1) in Hrun.
    unfold bind at 1 in Hrun. rewrite (load_float_Some _ _ _ F2) in Hrun.
    unfold bind at 1 in Hrun. rewrite (load_float_Some _ _ _ F3) in Hrun.
    unfold bind at 1 in Hrun. rewrite store_float_Some in Hrun by eauto.
    set (h1 := Heap _ _) in Hrun.
    assert (B1 : forall j, S i <= j < S i + n -> is_Some (floats h1 !! (v1 + j))).
    { intros j Hj. simpl. apply allocated_after_store, A1. lia. }
    assert (B2 : forall j, S i <= j < S i + n -> is_Some (floats h1 !! (v2 + j))).
    { intros j Hj. simpl. apply allocated_after_store, A2. lia. }
    assert (B3 : forall j, S i <= j < S i + n -> is_Some (floats h1 !! (v3 + j))).
    { intros j Hj. simpl. apply allocated_after_store, A3. lia. }
    destruct (decide (k = i)) as [->|Hne].
    + destruct (sum_vectors_loop_frame n (S i) h1 B1 B2 B3) as (h'' & Hrun' & _ & _ & Hfr).
      rewrite Hrun in Hrun'. injection Hrun' as <-.
      rewrite Hfr by lia. simpl. rewrite lookup_insert_eq.
      congruence.
    + apply (IH (S i) h1); auto.
      * replace (S i + n) with (i + S n) by lia. exact R2.
      * replace (S i + n) with (i + S n) by lia. exact R3.
      * lia.
      * simpl. rewrite lookup_insert_ne by lia. exact E1.
      * simpl. rewrite lookup_insert_ne; [exact E2|].
        unfold read_before_written in R2. lia.
      * simpl. rewrite lookup_insert_ne; [exact E3|].
        unfold read_before_written in R3. lia.
Qed.

End SumVectors.

Section SumVectorsClaims.

#[local] Open Scope nat_scope.

(** The condition says what its name says: no [v[i]] is a [v1[j]] that
    an earlier iteration wrote. *)
Lemma read_before_written_iff (v1 v : addr) (len : nat) :
  read_before_written v1 v len <->
  forall i j, j < i < len -> v + i <> v1 + j.
Proof.
  unfold read_before_written. split.
  - intros H i j Hij. lia.
  - intros H. destruct (decide (v1 <= v)) as [|Hlt]; [by left|right].
    destruct (decide (v + len <= v1)) as [|Hin]; [done|].
    exfalso. apply (H (v1 - v) 0); lia.
Qed.

(** Sequences without a common element qualify, and so does [v1] itself. *)
Lemma separate_read_before_written (v1 v : addr) (len : nat) :
  separate v1 v len -> read_before_written v1 v len.
Proof. unfold separate, read_before_written. lia. Qed.

Lemma same_read_before_written (v1 : addr) (len : nat) :
  read_before_written v1 v1 len.
Proof. unfold read_before_written. lia. Qed.

Lemma allocated_from_zero (h : heap) (v : addr) (len : nat) :
  allocated h v len -> forall k, 0 <= k < 0 + len -> is_Some (floats h !! (v + k)).
Proof. intros A k Hk. apply A. lia. Qed.

(** C3, as amended. With [len = 0] the call changes nothing.  With three
    sequences of at least [len] elements of which no element [v2[i]] or
    [v3[i]] is an element [v1[j]] with [j < i] (so whenever [v1] shares
    no element with [v2] and [v3], and also when [v2] or [v3] is [v1]
    itself), the call returns and leaves in each [v1[i]], [i < len], the
    sum [v1[i] + v2[i] + v3[i]] of the original elements. *)
Theorem sum_vectors_elementwise (h : heap) (v1 v2 v3 : addr) (len : nat) :
  sum_vectors v1 v2 v3 0 h = Some (tt, h) /\
  (allocated h v1 len -> allocated h v2 len -> allocated h v3 len ->
   read_before_written v1 v2 len -> read_before_written v1 v3 len ->
   exists h',
     sum_vectors v1 v2 v3 len h = Some (tt, h') /\
     elementwise_sum h h' v1 v2 v3 len).
Proof.
  split; [reflexivity|].
  intros A1 A2 A3 R2 R3.
  destruct (sum_vectors_loop_frame v1 v2 v3 len 0 h) as (h' & Hrun & _);
    try (by apply allocated_from_zero).
  exists h'. split; [exact Hrun|].
  intros i e1 e2 e3 Hi E1 E2 E3.
  eapply (sum_vectors_loop_sums v1 v2 v3 len 0 h);
    eauto; try (by apply allocated_from_zero); lia.
Qed.

(** C4, as amended. A call on three sequences of at least [len] elements
    returns and writes only into [v1[0]], ..., [v1[len-1]]: every other
    cell of the memory holds what it held, so the elements of [v1] from
    index [len] on are unchanged, and the contents of [v2] and of [v3]
    are unchanged when the sequence shares no element with [v1]. *)
Theorem sum_vectors_writes_only_v1 (h : heap) (v1 v2 v3 : addr) (len : nat) :
  allocated h v1 len -> allocated h v2 len -> allocated h v3 len ->
  exists h',
    sum_vectors v1 v2 v3 len h = Some (tt, h') /\
    same_outside h h' v1 len /\
    same_beyond h h' v1 len /\
    (separate v1 v2 len -> same_contents h h' v2 len) /\
    (separate v1 v3 len -> same_contents h h' v3 len).
Proof.
  intros A1 A2 A3.
  destruct (sum_vectors_loop_frame v1 v2 v3 len 0 h) as (h' & Hrun & Hs & _ & Hfr);
    try (by apply allocated_from_zero).
  exists h'. split; [exact Hrun|].
  unfold same_outside, same_beyond, same_contents, separate, within.
  repeat split.
  - exact Hs.
  - intros p Hp. apply Hfr. lia.
  - intros j Hj. apply Hfr. lia.
  - intros S2 i Hi. apply Hfr. lia.
  - intros S3 i Hi. apply Hfr. lia.
Qed.

End SumVectorsClaims.

(** *** Concrete runs of [sum_vectors] *)

Section VectorRuns.

#[local] Open Scope nat_scope.

Import VectorExamples.

Ltac allocated_cells :=
  let i := fresh "i" in
  let Hi := fresh "Hi" in
  intros i Hi;
  repeat (destruct i as [|i]; [solve [vm_compute; eauto]|]);
  lia.

(** With [v1 = buf + 1] and [v2 = buf] over [buf = {1, 2, 4}], the second
    iteration reads [v2[1]], which the first one has set to 3, and
    leaves 7. *)
Lemma overlapping_run_leaves_seven :
  cell_after 2 (sum_vectors 1 0 3 2 five_cells) = Some (f32_of_nat 7).
Proof. vm_compute. reflexivity. Qed.

(** C3, counterexample. For the sequences [v1 = buf + 1], [v2 = buf],
    [v3 = w] of two elements each, with [buf = {1, 2, 4}] and
    [w = {0, 0}], the call leaves 7 in [v1[1]], not the sum 4 + 2 + 0
    of the original elements. *)
Lemma sum_vectors_overlap_counterexample :
  allocated five_cells 1 2 /\ allocated five_cells 0 2 /\ allocated five_cells 3 2 /\
  exists h',
    sum_vectors 1 0 3 2 five_cells = Some (tt, h') /\
    ~ elementwise_sum five_cells h' 1 0 3 2.
Proof.
  split; [allocated_cells|]. split; [allocated_cells|]. split; [allocated_cells|].
  pose proof overlapping_run_leaves_seven as Hseven.
  destruct (sum_vectors 1 0 3 2 five_cells) as [[[] h']|]; [|discriminate Hseven].
  exists h'. split; [reflexivity|].
  intros Hsum. unfold cell_after in Hseven.
  assert (floats h' !! (1 + 1)
          = Some (f32_add (f32_add (f32_of_nat 4) (f32_of_nat 2)) (f32_of_nat 0)))
    as Habs by (apply Hsum; [lia | vm_compute; reflexivity ..]).
  pose proof (eq_trans (eq_sym Hseven) Habs) as Hneq.
  vm_compute in Hneq. discriminate Hneq.
Qed.

(** C3, witness: the three arrays of the [vector] branch of [main]. *)
Lemma sum_vectors_elementwise_witness :
  exists h',
    sum_vectors 0 3 6 3 Main.vector_frame = Some (tt, h') /\
    elementwise_sum Main.vector_frame h' 0 3 6 3.
Proof.
  apply (sum_vectors_elementwise Main.vector_frame 0 3 6 3).
  - allocated_cells.
  - allocated_cells.
  - allocated_cells.
  - unfold read_before_written. lia.
  - unfold read_before_written. lia.
Defined.

(** With the same array passed as [v1] and as [v2], the call turns its
    first element from 1 into 2. *)
Lemma aliased_run_leaves_two :
  cell_after 0 (sum_vectors 0 0 1 1 two_cells) = Some (f32_of_nat 2).
Proof. vm_compute. reflexivity. Qed.

(** C4, counterexample. For [sum_vectors(v, v, w, 1)] with [v = {1}] and
    [w = {0}], the content of [v2] is not what it was before the call. *)
Lemma sum_vectors_alias_counterexample :
  allocated two_cells 0 1 /\ allocated two_cells 1 1 /\
  exists h',
    sum_vectors 0 0 1 1 two_cells = Some (tt, h') /\
    ~ same_contents two_cells h' 0 1.
Proof.
  split; [allocated_cells|]. split; [allocated_cells|].
  pose proof aliased_run_leaves_two as Htwo.
  destruct (sum_vectors 0 0 1 1 two_cells) as [[[] h']|]; [|discriminate Htwo].
  exists h'. split; [reflexivity|].
  intros Hsame. unfold cell_after in Htwo.
  assert (floats h' !! (0 + 0) = floats two_cells !! (0 + 0)) as Habs
    by (apply Hsame; lia).
  pose proof (eq_trans (eq_sym Htwo) Habs) as Hneq.
  vm_compute in Hneq. discriminate Hneq.
Qed.

(** C4, witness: the three arrays of the [vector] branch of [main]. *)
Lemma sum_vectors_writes_only_v1_witness :
  exists h',
    sum_vectors 0 3 6 3 Main.vector_frame = Some (tt, h') /\
    same_outside Main.vector_frame h' 0 3 /\
    same_beyond Main.vector_frame h' 0 3 /\
    (separate 0 3 3 -> same_contents Main.vector_frame h' 3 3) /\
    (separate 0 6 3 -> same_contents Main.vector_frame h' 6 3).
Proof.
  apply (sum_vectors_writes_only_v1 Main.vector_frame 0 3 6 3).
  - allocated_cells.
  - allocated_cells.
  - allocated_cells.
Defined.

End VectorRuns.

(** ** [sum_structs] *)

Section SumStructs.

#[local] Open Scope Z_scope.

Lemma wrap_in_range (n : Z) : Int32.in_range (Int32.wrap n).
Proof.
  unfold Int32.in_range, Int32.wrap, Int32.max_signed, Int32.min_signed, Int32.modulus.
  pose proof (Z.mod_pos_bound (n - - 2 ^ 31) (2 ^ 32)). lia.
Qed.

Lemma wrap_congruent (n : Z) : congruent (Int32.wrap n) n.
Proof.
  unfold congruent, Int32.wrap, Int32.min_signed, Int32.modulus.
  replace ((n - - 2 ^ 31) mod 2 ^ 32 + - 2 ^ 31 - n)
    with ((n - - 2 ^ 31) mod 2 ^ 32 - (n - - 2 ^ 31)) by lia.
  rewrite Zminus_mod, Zmod_mod, Z.sub_diag. reflexivity.
Qed.

(** Within the range of [int] nothing wraps. *)
Lemma wrap_exact (n : Z) : Int32.in_range n -> Int32.wrap n = n.
Proof.
  unfold Int32.in_range, Int32.wrap, Int32.max_signed, Int32.min_signed, Int32.modulus.
  intros Hn. rewrite Z.mod_small; lia.
Qed.

(** [INT_MAX + 1] wraps to [INT_MIN]. *)
Example add_wraps : Int32.add Int32.max_signed 1 = Int32.min_signed.
Proof. reflexivity. Qed.

(** C5. For two records [r1] at [s1] and [r2] at [s2] (which may be the
    same record), [sum_structs] returns a record whose [x] is an [int]
    equal to [r1.x + r2.x] modulo [2^32], whose [y] is the binary32 sum
    and whose [z] is the binary64 sum of the fields; the memory, and so
    both inputs, is left as it was. *)
Theorem sum_structs_fieldwise (h : heap) (s1 s2 : addr) (r1 r2 : MyStruct) :
  structs h !! s1 = Some r1 ->
  structs h !! s2 = Some r2 ->
  exists out,
    sum_structs s1 s2 h = Some (out, h) /\
    Int32.in_range (x out) /\
    congruent (x out) (x r1 + x r2) /\
    y out = f32_add (y r1) (y r2) /\
    z out = f64_add (z r1) (z r2).
Proof.
  intros E1 E2. unfold sum_structs, bind, load_struct, ret.
  rewrite E1, E2. eexists. split; [reflexivity|]. simpl.
  split; [apply wrap_in_range|]. split; [apply wrap_congruent|]. split; reflexivity.
Qed.

(** C5, witness: the two records of the [struct] branch of [main]. *)
Lemma sum_structs_fieldwise_witness :
  exists out,
    sum_structs 0%nat 1%nat Main.struct_frame = Some (out, Main.struct_frame) /\
    Int32.in_range (x out) /\
    congruent (x out) (1 + 4) /\
    y out = f32_add (Main.f32_lit 25 (-1)) (Main.f32_lit 15 (-1)) /\
    z out = f64_add (Main.f64_lit 325 (-2)) (Main.f64_lit 75 (-2)).
Proof.
  apply (sum_structs_fieldwise Main.struct_frame 0%nat 1%nat
           {| x := 1; y := Main.f32_lit 25 (-1); z := Main.f64_lit 325 (-2) |}
           {| x := 4; y := Main.f32_lit 15 (-1); z := Main.f64_lit 75 (-2) |}).
  - vm_compute. reflexivity.
  - vm_compute. reflexivity.
Defined.

(** X8. When the sum of the two [x] fields fits an [int], the [x] of the
    result is that sum itself. *)
Lemma sum_structs_no_overflow (h : heap) (s1 s2 : addr) (r1 r2 out : MyStruct) (h' : heap) :
  sum_structs s1 s2 h = Some (out, h') ->
  structs h !! s1 = Some r1 ->
  structs h !! s2 = Some r2 ->
  Int32.in_range (x r1 + x r2) ->
  x out = x r1 + x r2.
Proof.
  intros Hrun E1 E2 Hfit. unfold sum_structs, bind, load_struct, ret in Hrun.
  rewrite E1, E2 in Hrun. injection Hrun as <- _. simpl.
  by apply wrap_exact.
Qed.

(** A record that is not allocated gives no result. *)
Lemma sum_structs_unallocated (h : heap) (s1 s2 : addr) :
  structs h !! s1 = None -> sum_structs s1 s2 h = None.
Proof. intros E. unfold sum_structs, bind, load_struct. by rewrite E. Qed.

End SumStructs.

(** * Properties of [main] *)

Section Scenarios.

Import Main RunSpec.

(** C1, as amended. Run as [--mode vector] without [--use-lib], the
    program sums [1,2,3], [0.5,0.5,0.5] and [0.1,0.2,0.3] with the
    built-in [sum_vectors], prints
    [sum_vectors result: [1.600000, 2.700000, 3.800000]] and returns 0. *)
Theorem vector_scenario (prog : string) (env : dl_env) :
  main prog vector_args env = (vector_trace, Some 0) /\
  stdout_of vector_trace = vector_line +:+ Libc.nl /\
  stderr_of vector_trace = EmptyString.
Proof. vm_compute. auto. Qed.

(** The three sums in memory: the binary32 numbers nearest to 1.6, 2.7
    and 3.8. *)
Example vector_frame_sums :
  let r := sum_vectors 0%nat 3%nat 6%nat 3%nat vector_frame in
  VectorExamples.cell_after 0%nat r = Some (f32_lit 16 (-1)) /\
  VectorExamples.cell_after 1%nat r = Some (f32_lit 27 (-1)) /\
  VectorExamples.cell_after 2%nat r = Some (f32_lit 38 (-1)).
Proof. vm_compute. auto. Qed.

(** C1, counterexample. What [--mode vector] prints does not begin with
    [sum_vectors result: [1.600000, 2.700000, 3.400000]]: the third
    element is 3 + 0.5 + 0.3. *)
Lemma vector_scenario_counterexample :
  String.prefix vector_line_expected
    (stdout_of (main "./binary_playground" vector_args no_library).1) = false.
Proof. vm_compute. reflexivity. Qed.

(** C6, as amended. Run as [--mode scalar --a 1.2 --b 3.4 --c 5.6]
    without [--use-lib], the program prints
    [sum_scalars(1.200000, 3.400000, 5.600000) = 10.200001] and nothing
    else, and returns 0: in binary32, 1.2 + 3.4 rounds up to
    4.6000003814697266, and adding 5.6 rounds up again, to
    10.200000762939453. *)
Theorem scalar_scenario (prog : string) (env : dl_env) :
  main prog scalar_args env =
    ([Call "sum_scalars" false; Stdout (scalar_line +:+ Libc.nl)], Some 0).
Proof. vm_compute. reflexivity. Qed.

(** C6, counterexample. What the scenario prints does not begin with
    [sum_scalars(1.200000, 3.400000, 5.600000) = 10.200000]. *)
Lemma scalar_scenario_counterexample :
  String.prefix scalar_line_expected
    (stdout_of (main "./binary_playground" scalar_args no_library).1) = false.
Proof. vm_compute. reflexivity. Qed.

(** The arguments of the scenario are read as binary32 numbers. *)
Example scalar_scenario_inputs :
  Libc.strtof "1.2" = S754_finite false 10066330 (-23) /\
  Libc.strtof "3.4" = S754_finite false 14260634 (-22) /\
  Libc.strtof "5.6" = S754_finite false 11744051 (-21) /\
  valid32 (Libc.strtof "1.2") && valid32 (Libc.strtof "3.4")
    && valid32 (Libc.strtof "5.6") = true.
Proof. vm_compute. auto. Qed.

(** The two roundings behind the last digit. *)
Example scalar_scenario_roundings :
  f32_add (Libc.strtof "1.2") (Libc.strtof "3.4") = S754_finite false 9646900 (-21) /\
  sum_scalars (Libc.strtof "1.2") (Libc.strtof "3.4") (Libc.strtof "5.6")
    = S754_finite false 10695476 (-20).
Proof. split; reflexivity. Qed.

(** [--mode struct] prints the line the specification gives. *)
Example struct_scenario (prog : string) (env : dl_env) :
  main prog ["--mode"; "struct"] env =
    ([Call "sum_structs" false;
      Stdout ("sum_structs: x=5, y=4.000000, z=4.000000" +:+ Libc.nl)], Some 0).
Proof. vm_compute. reflexivity. Qed.

End Scenarios.

(** ** The option loop *)

Section OptionLoop.

Import Getopt Main RunSpec.

Variable prog : string.

Lemma final_config_nil (cfg0 : config) : final_config cfg0 [] = cfg0.
Proof.
  destruct cfg0 as [m u fa fb fc]. unfold final_config, last_string, last_float, occurs.
  simpl. by rewrite orb_false_r.
Qed.

(** [last_optarg] is the argument of the last occurrence. *)
Lemma last_optarg_none (o : ascii) (rs : list result) :
  Forall (other_option o) rs -> last_optarg o rs = None.
Proof.
  induction 1 as [|r rs Hr _ IH]; [reflexivity|].
  destruct r as [o' v|diag]; simpl; rewrite IH; [|reflexivity].
  simpl in Hr. by destruct (Ascii.eqb_spec o' o).
Qed.

Lemma last_optarg_last (o : ascii) (v : string) (rs1 rs2 : list result) :
  Forall (other_option o) rs2 ->
  last_optarg o (rs1 ++ Opt o v :: rs2) = Some v.
Proof.
  intros H2. induction rs1 as [|r rs1 IH]; simpl.
  - by rewrite (last_optarg_none o rs2 H2), Ascii.eqb_refl.
  - destruct r as [o' v'|diag]; by rewrite IH.
Qed.

(** Case analysis on the [switch]: which of the six letters [o] is. *)
Ltac switch_on o :=
  destruct (Ascii.eqb_spec o "m") as [->|];
  [|destruct (Ascii.eqb_spec o "u") as [->|];
    [|destruct (Ascii.eqb_spec o "a") as [->|];
      [|destruct (Ascii.eqb_spec o "b") as [->|];
        [|destruct (Ascii.eqb_spec o "c") as [->|];
          [|destruct (Ascii.eqb_spec o "h") as [->|]]]]]].

Ltac last_cases rs :=
  unfold final_config, last_string, last_float, occurs; simpl;
  destruct (last_optarg "m" rs), (last_optarg "u" rs), (last_optarg "a" rs),
    (last_optarg "b" rs), (last_optarg "c" rs);
  simpl; rewrite ?orb_true_r, ?orb_false_r; reflexivity.

(** A loop that runs to its end writes nothing and leaves in each
    variable what the last occurrence of its option assigned. *)
Lemma parse_options_parsed (rs : list result) (cfg0 cfg : config) (t : list event) :
  parse_options prog rs cfg0 = (t, Parsed cfg) ->
  t = [] /\ cfg = final_config cfg0 rs.
Proof.
  revert cfg0. induction rs as [|[o optarg|diag] rs IH]; intros cfg0 H.
  - simpl in H. injection H as <- <-. by rewrite final_config_nil.
  - simpl in H. switch_on o; simpl in H; try discriminate H;
      apply IH in H as [-> ->]; (split; [reflexivity|]); last_cases rs.
  - simpl in H. discriminate H.
Qed.

(** A [return] inside the loop happens with status 0 or 1, after the
    usage text. *)
Lemma parse_options_returned (rs : list result) (cfg0 : config) (t : list event) (st : Z) :
  parse_options prog rs cfg0 = (t, Returned st) ->
  (st = 0 \/ st = 1) /\ handle_events t = [] /\ calls t = [].
Proof.
  revert cfg0. induction rs as [|[o optarg|diag] rs IH]; intros cfg0 H.
  - discriminate H.
  - simpl in H. switch_on o; simpl in H; try (by eapply IH);
      injection H as <- <-; auto.
  - simpl in H. injection H as <- <-. auto.
Qed.

End OptionLoop.

(** ** Loading and dispatch *)

Section Dispatch.

Import Getopt Main RunSpec.

Lemma handle_events_app (t t' : list event) :
  handle_events (t ++ t') = handle_events t ++ handle_events t'.
Proof. apply List.filter_app. Qed.

Lemma calls_app (t t' : list event) : calls (t ++ t') = calls t ++ calls t'.
Proof. apply List.filter_app. Qed.

(** The printing loop only writes to the standard output. *)
Lemma print_vector_loop_quiet (n i : nat) (v1 : addr) (len : nat) (h h' : heap)
    (t : list event) :
  print_vector_loop n i v1 len h = Some (t, h') ->
  handle_events t = [] /\ calls t = [].
Proof.
  revert i h h' t. induction n as [|n IH]; intros i h h' t H.
  - injection H as <- _. auto.
  - simpl in H. unfold bind in H.
    destruct (load_float (v1 + i)%nat h) as [[e h0]|]; [|discriminate H].
    destruct (print_vector_loop n (S i) v1 len h0) as [[rest h1]|] eqn:E; [|discriminate H].
    injection H as <- _. apply IH in E as [E1 E2].
    unfold handle_events, calls in *. simpl. auto.
Qed.

Lemma run_scalar_quiet (cfg : config) (handle : option (string * library)) :
  handle_events (run_scalar cfg handle) = [].
Proof.
  unfold run_scalar.
  by destruct (resolved (use_lib cfg) handle lib_sum_scalars).
Qed.

Lemma run_vector_quiet (cfg : config) (handle : option (string * library))
    (t : list event) :
  run_vector cfg handle = Some t -> handle_events t = [].
Proof.
  unfold run_vector. intros H.
  destruct (resolved (use_lib cfg) handle lib_sum_vectors) as [f|];
    unfold bind in H.
  - destruct (f 0%nat 3%nat 6%nat 3%nat vector_frame) as [[[] h1]|]; [|discriminate H].
    destruct (print_vector_loop 3 0 0%nat 3 h1) as [[elems h2]|] eqn:E; [|discriminate H].
    injection H as <-. apply print_vector_loop_quiet in E as [E _].
    unfold handle_events in *. simpl. rewrite List.filter_app, E. reflexivity.
  - destruct (sum_vectors 0%nat 3%nat 6%nat 3%nat vector_frame) as [[[] h1]|]; [|discriminate H].
    destruct (print_vector_loop 3 0 0%nat 3 h1) as [[elems h2]|] eqn:E; [|discriminate H].
    injection H as <-. apply print_vector_loop_quiet in E as [E _].
    unfold handle_events in *. simpl. rewrite List.filter_app, E. reflexivity.
Qed.

Lemma run_struct_quiet (cfg : config) (handle : option (string * library))
    (t : list event) :
  run_struct cfg handle = Some t -> handle_events t = [].
Proof.
  unfold run_struct. intros H.
  destruct (resolved (use_lib cfg) handle lib_sum_structs) as [f|].
  - destruct (f 0%nat 1%nat struct_frame) as [[out h1]|]; [|discriminate H].
    by injection H as <-.
  - destruct (sum_structs 0%nat 1%nat struct_frame) as [[out h1]|]; [|discriminate H].
    by injection H as <-.
Qed.

Lemma close_handle_events (handle : option (string * library)) :
  handle_events (close_handle handle) = close_handle handle.
Proof. by destruct handle as [[libname l]|]. Qed.

(** Whatever the branch, a dispatch that returns has released the
    handle it was given, once, as its last action. *)
Lemma dispatch_releases (prog : string) (cfg : config)
    (handle : option (string * library)) (t : list event) (st : Z) :
  dispatch prog cfg handle = (t, Some st) ->
  handle_events t = close_handle handle.
Proof.
  unfold dispatch, finish. intros H.
  destruct (String.eqb (mode cfg) "scalar").
  { injection H as <- _.
    by rewrite handle_events_app, run_scalar_quiet, close_handle_events. }
  destruct (String.eqb (mode cfg) "vector").
  { destruct (run_vector cfg handle) as [t'|] eqn:E; [|discriminate H].
    injection H as <- _.
    by rewrite handle_events_app, (run_vector_quiet _ _ _ E), close_handle_events. }
  destruct (String.eqb (mode cfg) "struct").
  { destruct (run_struct cfg handle) as [t'|] eqn:E; [|discriminate H].
    injection H as <- _.
    by rewrite handle_events_app, (run_struct_quiet _ _ _ E), close_handle_events. }
  injection H as <- _.
  change (handle_events (close_handle handle) = close_handle handle).
  apply close_handle_events.
Qed.

(** The handle events of the loading step: one acquisition when a
    handle comes out of it, none otherwise. *)
Lemma load_library_events (env : dl_env) (u : bool) (t : list event)
    (loaded : option (option (string * library))) :
  load_library env u = (t, loaded) ->
  match loaded with
  | Some (Some (libname, _)) => handle_events t = [Dlopen libname true]
  | _ => handle_events t = []
  end.
Proof.
  unfold load_library. intros H. destruct u.
  - destruct (dlopen env dylib_name) as [l|].
    + by injection H as <- <-.
    + destruct (dlopen env so_name) as [l|]; by injection H as <- <-.
  - by injection H as <- <-.
Qed.

(** Without [--use-lib] nothing is loaded. *)
Lemma load_library_off (env : dl_env) : load_library env false = ([], Some None).
Proof. reflexivity. Qed.

(** [main] is the option loop followed by the rest. *)
Lemma main_after_options (prog : string) (args : list string) (env : dl_env)
    (cfg : config) (t : list event) :
  parse_options prog (getopt_long prog args optstring long_options) default_config
    = (t, Parsed cfg) ->
  main prog args env = after_options prog cfg env.
Proof.
  intros H. unfold main, after_options. rewrite H.
  apply parse_options_parsed in H as [-> _].
  destruct (load_library env (use_lib cfg)) as [t2 [handle|]]; [|reflexivity].
  by destruct (dispatch prog cfg handle).
Qed.

(** In an unknown mode the dispatch reports and fails. *)
Lemma dispatch_unknown (prog : string) (cfg : config) (handle : option (string * library)) :
  unknown_mode (mode cfg) ->
  dispatch prog cfg handle
    = (unknown_mode_report prog (mode cfg) ++ close_handle handle, Some 1).
Proof.
  intros (H1 & H2 & H3). unfold dispatch.
  destruct (String.eqb_spec (mode cfg) "scalar"); [done|].
  destruct (String.eqb_spec (mode cfg) "vector"); [done|].
  destruct (String.eqb_spec (mode cfg) "struct"); [done|].
  reflexivity.
Qed.

End Dispatch.

(** ** Claims about [main] *)

Section MainClaims.

Import Getopt Main RunSpec.

Lemma load_library_no_calls (env : dl_env) (u : bool) (t : list event)
    (loaded : option (option (string * library))) :
  load_library env u = (t, loaded) -> calls t = [].
Proof.
  unfold load_library. intros H. destruct u.
  - destruct (dlopen env dylib_name) as [l|].
    + by injection H as <- _.
    + destruct (dlopen env so_name) as [l|]; by injection H as <- _.
  - by injection H as <- _.
Qed.

Lemma close_handle_no_calls (handle : option (string * library)) :
  calls (close_handle handle) = [].
Proof. by destruct handle as [[libname l]|]. Qed.

(** [--mode m] alone is one result of [getopt_long], whatever [m] is. *)
Lemma getopt_mode_alone (prog m : string) :
  getopt_long prog ["--mode"; m] optstring long_options = [Opt "m" m].
Proof. reflexivity. Qed.

(** C7, as amended. For every mode [m] that is none of [scalar],
    [vector] and [struct], the run [--mode m] writes the error message
    and the usage text and returns 1; and so does every run that reaches
    the dispatch with [mode = m], that is, whose option loop runs to its
    end (no [--help], no rejected option) and whose library, if one is
    asked for, loads: it writes the two texts, releases the handle,
    returns 1 and calls none of the three functions. *)
Theorem unknown_mode_fails (prog : string) (env : dl_env) (m : string) :
  unknown_mode m ->
  main prog ["--mode"; m] env = (unknown_mode_report prog m, Some 1) /\
  forall args cfg t1 t2 handle,
    parse_options prog (getopt_long prog args optstring long_options) default_config
      = (t1, Parsed cfg) ->
    mode cfg = m ->
    load_library env (use_lib cfg) = (t2, Some handle) ->
    main prog args env
      = (t2 ++ unknown_mode_report prog m ++ close_handle handle, Some 1) /\
    calls (t2 ++ unknown_mode_report prog m ++ close_handle handle) = [].
Proof.
  intros Hm.
  assert (forall args cfg t1 t2 handle,
    parse_options prog (getopt_long prog args optstring long_options) default_config
      = (t1, Parsed cfg) ->
    mode cfg = m ->
    load_library env (use_lib cfg) = (t2, Some handle) ->
    main prog args env
      = (t2 ++ unknown_mode_report prog m ++ close_handle handle, Some 1) /\
    calls (t2 ++ unknown_mode_report prog m ++ close_handle handle) = []) as General.
  { intros args cfg t1 t2 handle Hparse Hmode Hload.
    rewrite (main_after_options _ _ _ _ _ Hparse). unfold after_options.
    rewrite Hload, dispatch_unknown by (by rewrite Hmode).
    rewrite Hmode. split; [reflexivity|].
    rewrite !calls_app, (load_library_no_calls _ _ _ _ Hload), close_handle_no_calls.
    reflexivity. }
  split; [|exact General].
  destruct (General ["--mode"; m] (set_mode m default_config) [] [] None) as [Hrun _].
  - by rewrite getopt_mode_alone.
  - reflexivity.
  - reflexivity.
  - rewrite Hrun. reflexivity.
Qed.

(** C7, witness: [--mode bogus]. *)
Lemma unknown_mode_fails_witness :
  main "./binary_playground" ["--mode"; "bogus"] no_library
    = (unknown_mode_report "./binary_playground" "bogus", Some 1).
Proof.
  apply (unknown_mode_fails "./binary_playground" no_library "bogus").
  unfold unknown_mode. repeat split; discriminate.
Defined.

(** C7, counterexample. [bogus] is none of the three modes, yet the run
    [--mode bogus --help] writes the usage text alone and returns 0, and
    the run [--use-lib --mode bogus], where no library can be opened,
    returns 1 without the usage text and without naming the mode. *)
Lemma unknown_mode_counterexample :
  unknown_mode "bogus" /\
  main "./binary_playground" ["--mode"; "bogus"; "--help"] no_library
    = ([Stdout (usage_text "./binary_playground")], Some 0) /\
  main "./binary_playground" ["--use-lib"; "--mode"; "bogus"] no_library
    = ([Dlopen dylib_name false; Dlopen so_name false;
        Stderr ("Failed to open dynamic library: " +:+ dlerror no_library +:+ Libc.nl)],
       Some 1).
Proof.
  split; [unfold unknown_mode; repeat split; discriminate|].
  split; vm_compute; reflexivity.
Qed.

(** C8. A run of [main] that returns has either acquired no library
    handle and released none, or acquired exactly one and then released
    it exactly once. *)
Theorem handle_released (prog : string) (args : list string) (env : dl_env)
    (t : list event) (st : Z) :
  main prog args env = (t, Some st) ->
  handle_events t = [] \/
  exists libname, handle_events t = [Dlopen libname true; Dlclose libname].
Proof.
  unfold main.
  destruct (parse_options prog (getopt_long prog args optstring long_options) default_config)
    as [t1 [cfg|st1]] eqn:Hparse.
  - apply parse_options_parsed in Hparse as [-> _].
    destruct (load_library env (use_lib cfg)) as [t2 [handle|]] eqn:Hload.
    + destruct (dispatch prog cfg handle) as [t3 st3] eqn:Hdisp.
      intros H. injection H as <- ->.
      apply load_library_events in Hload. apply dispatch_releases in Hdisp.
      simpl. rewrite handle_events_app, Hdisp.
      destruct handle as [[libname l]|]; rewrite Hload; simpl; eauto.
    + intros H. injection H as <- _.
      apply load_library_events in Hload. simpl. auto.
  - intros H. injection H as <- _.
    apply parse_options_returned in Hparse as (_ & Hh & _). auto.
Qed.

(** C8, witness: [--use-lib --mode bogus] where only the [.so] loads. *)
Lemma handle_released_witness :
  handle_events
    [Dlopen dylib_name false; Dlopen so_name true;
     Stderr ("Unknown mode 'bogus'" +:+ Libc.nl); Stdout (usage_text "./binary_playground");
     Dlclose so_name] = [] \/
  exists libname,
    handle_events
      [Dlopen dylib_name false; Dlopen so_name true;
       Stderr ("Unknown mode 'bogus'" +:+ Libc.nl); Stdout (usage_text "./binary_playground");
       Dlclose so_name] = [Dlopen libname true; Dlclose libname].
Proof.
  apply (handle_released "./binary_playground" ["--use-lib"; "--mode"; "bogus"] so_present _ 1).
  vm_compute. reflexivity.
Defined.


(** Earlier occurrences leave no mark on the run. *)
Example repeated_options (prog : string) (env : dl_env) :
  main prog ["--mode"; "bogus"; "--a"; "9"; "--c"; "7"; "--mode"; "scalar";
             "--a"; "1.2"; "--b"; "3.4"; "--c"; "5.6"] env
  = main prog scalar_args env.
Proof. vm_compute. reflexivity. Qed.

(** In the [vector] and [struct] modes without library, the dispatch
    does not read [a], [b] and [c]. *)
Lemma dispatch_ignores_scalars (prog : string) (cfg1 cfg2 : config)
    (handle : option (string * library)) :
  mode cfg1 = mode cfg2 ->
  mode cfg1 = "vector" \/ mode cfg1 = "struct" ->
  use_lib cfg1 = false -> use_lib cfg2 = false ->
  dispatch prog cfg1 handle = dispatch prog cfg2 handle.
Proof.
  intros Hm Hmode U1 U2. unfold dispatch. rewrite <- Hm.
  destruct Hmode as [-> | ->]; simpl.
  - unfold run_vector, resolved. by rewrite U1, U2.
  - unfold run_struct, resolved. by rewrite U1, U2.
Qed.

(** C10. Two runs whose option loops end in the same mode, [vector] or
    [struct], and without [--use-lib] have the same trace and the same
    exit status, whatever [--a], [--b] and [--c] were given to each. *)
Theorem vector_struct_ignore_scalars (prog : string) (env : dl_env)
    (args1 args2 : list string) (cfg1 cfg2 : config) (t1 t2 : list event) :
  parse_options prog (getopt_long prog args1 optstring long_options) default_config
    = (t1, Parsed cfg1) ->
  parse_options prog (getopt_long prog args2 optstring long_options) default_config
    = (t2, Parsed cfg2) ->
  mode cfg1 = mode cfg2 ->
  mode cfg1 = "vector" \/ mode cfg1 = "struct" ->
  use_lib cfg1 = false -> use_lib cfg2 = false ->
  main prog args1 env = main prog args2 env.
Proof.
  intros P1 P2 Hm Hmode U1 U2.
  rewrite (main_after_options _ _ _ _ _ P1), (main_after_options _ _ _ _ _ P2).
  unfold after_options. rewrite U1, U2, load_library_off.
  by rewrite (dispatch_ignores_scalars prog cfg1 cfg2 None).
Qed.

(** C10, witness: [--mode struct] with two different sets of scalars. *)
Lemma vector_struct_ignore_scalars_witness :
  main "./binary_playground" ["--mode"; "struct"; "--a"; "1.5"] no_library
  = main "./binary_playground" ["--a"; "9"; "--mode"; "struct"; "--c"; "-2"] no_library.
Proof.
  apply (vector_struct_ignore_scalars "./binary_playground" no_library
           ["--mode"; "struct"; "--a"; "1.5"] ["--a"; "9"; "--mode"; "struct"; "--c"; "-2"]
           (set_a (Libc.strtof "1.5") (set_mode "struct" default_config))
           (set_c (Libc.strtof "-2") (set_mode "struct" (set_a (Libc.strtof "9") default_config)))
           [] []).
  - vm_compute. reflexivity.
  - vm_compute. reflexivity.
  - reflexivity.
  - right. reflexivity.
  - reflexivity.
  - reflexivity.
Defined.

End MainClaims.

(** ** Runs on the built-in functions return *)

Section Returns.

Import Getopt Main RunSpec.

Lemma run_vector_builtin (cfg : config) :
  exists t, run_vector cfg None = Some t.
Proof.
  unfold run_vector, resolved.
  destruct (use_lib cfg); vm_compute; eauto.
Qed.

Lemma run_struct_builtin (cfg : config) :
  exists t, run_struct cfg None = Some t.
Proof.
  unfold run_struct, resolved.
  destruct (use_lib cfg); vm_compute; eauto.
Qed.

Lemma dispatch_builtin_returns (prog : string) (cfg : config) :
  exists t st, dispatch prog cfg None = (t, Some st).
Proof.
  unfold dispatch.
  destruct (String.eqb (mode cfg) "scalar"); [simpl; eauto|].
  destruct (String.eqb (mode cfg) "vector").
  { destruct (run_vector_builtin cfg) as [t ->]. simpl. eauto. }
  destruct (String.eqb (mode cfg) "struct").
  { destruct (run_struct_builtin cfg) as [t ->]. simpl. eauto. }
  eauto.
Qed.

(** X22. Where no library can be loaded, every run of [main] returns a
    status, whatever the command line. *)
Lemma main_returns (prog : string) (args : list string) (env : dl_env) :
  (forall file, dlopen env file = None) ->
  exists t st, main prog args env = (t, Some st).
Proof.
  intros Hnone. unfold main.
  destruct (parse_options prog _ default_config) as [t1 [cfg|st1]]; [|eauto].
  unfold load_library. destruct (use_lib cfg).
  - rewrite !Hnone. eauto.
  - destruct (dispatch_builtin_returns prog cfg) as (t3 & st3 & ->). eauto.
Qed.

End Returns.

(** * Further properties of the arithmetic core *)

Section CoreAlgebra.

Import MoreSpec.

Lemma add_comm (f : format) (u v : spec_float) : add f u v = add f v u.
Proof.
  destruct u as [s|s| |s m ex], v as [s'|s'| |s' m' ex']; try reflexivity;
    try (by destruct s, s').
  unfold add. simpl. by rewrite (Z.min_comm ex' ex), Z.add_comm.
Qed.

Lemma int32_add_comm (m n : Z) : Int32.add m n = Int32.add n m.
Proof. unfold Int32.add. by rewrite Z.add_comm. Qed.

(** X1. Exchanging the first two arguments of [sum_scalars] never
    changes the value returned: the same number, the same signed zero,
    the same infinity, or NaN in both orders.  (The sign and the payload
    of a NaN are not part of a value here; they may differ.) *)
Theorem sum_scalars_swap (a b c : binary32) :
  sum_scalars a b c = sum_scalars b a c.
Proof. unfold sum_scalars, f32_add. by rewrite (add_comm _ a b). Qed.

(** X2, witness. *)
Lemma sum_scalars_valid_witness :
  valid32 (sum_scalars (Libc.strtof "1.2") (Libc.strtof "3.4") (Libc.strtof "5.6")) = true.
Proof.
  apply (sum_scalars_valid (Libc.strtof "1.2") (Libc.strtof "3.4") (Libc.strtof "5.6"));
    vm_compute; reflexivity.
Defined.

(** X3, witness: the largest binary32 number three times over. *)
Lemma sum_scalars_finite_witness :
  is_nan (sum_scalars (S754_finite false 16777215 104) (S754_finite false 16777215 104)
            (S754_finite false 16777215 104)) = false.
Proof.
  apply (sum_scalars_finite (S754_finite false 16777215 104) (S754_finite false 16777215 104)
           (S754_finite false 16777215 104)); reflexivity.
Defined.

Lemma load_struct_cases (p : addr) (h : heap) :
  (exists r, structs h !! p = Some r /\ load_struct p h = Some (r, h)) \/
  (structs h !! p = None /\ load_struct p h = None).
Proof.
  unfold load_struct. destruct (structs h !! p) as [r|]; eauto.
Qed.

(** X7. [sum_structs] is symmetric in its two arguments: both orders
    give the same record, or both are undefined. *)
Theorem sum_structs_comm (h : heap) (s1 s2 : addr) :
  sum_structs s1 s2 h = sum_structs s2 s1 h.
Proof.
  unfold sum_structs, bind, ret.
  destruct (load_struct_cases s1 h) as [(r1 & _ & L1)|[_ L1]],
           (load_struct_cases s2 h) as [(r2 & _ & L2)|[_ L2]];
    rewrite ?L1, ?L2, ?L1; try reflexivity.
  unfold f32_add, f64_add.
  by rewrite int32_add_comm, (add_comm _ (y r1)), (add_comm _ (z r1)).
Qed.

(** X9. [sum_structs] has a result exactly when both pointers point to
    a record. *)
Theorem sum_structs_defined_iff (h : heap) (s1 s2 : addr) :
  is_Some (sum_structs s1 s2 h) <->
  is_Some (structs h !! s1) /\ is_Some (structs h !! s2).
Proof.
  unfold sum_structs, bind, ret.
  destruct (load_struct_cases s1 h) as [(r1 & E1 & L1)|[E1 L1]],
           (load_struct_cases s2 h) as [(r2 & E2 & L2)|[E2 L2]];
    rewrite ?L1, ?L2, E1, E2; split; try (intros [? ?]; discriminate);
    try (intros [[? ?] [? ?]]; discriminate); eauto.
Qed.

(** X8, witness: the two records of the [struct] branch. *)
Lemma sum_structs_no_overflow_witness :
  x {| x := Int32.add 1 4; y := f32_add (Main.f32_lit 25 (-1)) (Main.f32_lit 15 (-1));
       z := f64_add (Main.f64_lit 325 (-2)) (Main.f64_lit 75 (-2)) |} = 1 + 4.
Proof.
  apply (sum_structs_no_overflow Main.struct_frame 0%nat 1%nat
           {| x := 1; y := Main.f32_lit 25 (-1); z := Main.f64_lit 325 (-2) |}
           {| x := 4; y := Main.f32_lit 15 (-1); z := Main.f64_lit 75 (-2) |}
           _ Main.struct_frame).
  - vm_compute. reflexivity.
  - vm_compute. reflexivity.
  - vm_compute. reflexivity.
  - unfold Int32.in_range, Int32.min_signed, Int32.max_signed. simpl. lia.
Defined.

End CoreAlgebra.

Section VectorLoop.

Import MoreSpec.

#[local] Open Scope nat_scope.

Lemma load_float_None (h : heap) (p : addr) :
  floats h !! p = None -> load_float p h = None.
Proof. intros E. unfold load_float. by rewrite E. Qed.

(** One iteration of the loop, spelled out. *)
Lemma sum_vectors_loop_step (n i : nat) (v1 v2 v3 : addr) (h : heap) :
  sum_vectors_loop (S n) i v1 v2 v3 h =
  match floats h !! (v1 + i), floats h !! (v2 + i), floats h !! (v3 + i) with
  | Some e1, Some e2, Some e3 =>
      sum_vectors_loop n (S i) v1 v2 v3
        (Heap (<[v1 + i := f32_add (f32_add e1 e2) e3]> (floats h)) (structs h))
  | _, _, _ => None
  end.
Proof.
  simpl. unfold bind.
  destruct (floats h !! (v1 + i)) as [e1|] eqn:E1;
    [rewrite (load_float_Some _ _ _ E1)|by rewrite (load_float_None _ _ E1)].
  destruct (floats h !! (v2 + i)) as [e2|] eqn:E2;
    [rewrite (load_float_Some _ _ _ E2)|by rewrite (load_float_None _ _ E2)].
  destruct (floats h !! (v3 + i)) as [e3|] eqn:E3;
    [rewrite (load_float_Some _ _ _ E3)|by rewrite (load_float_None _ _ E3)].
  rewrite store_float_Some by eauto. reflexivity.
Qed.

Lemma insert_same_cells (m : gmap nat binary32) (p q : nat) (v : binary32) :
  is_Some (m !! p) -> (is_Some (<[p := v]> m !! q) <-> is_Some (m !! q)).
Proof.
  intros Hp. destruct (decide (p = q)) as [->|Hne].
  - rewrite lookup_insert_eq. split; eauto.
  - by rewrite lookup_insert_ne.
Qed.

(** A loop that runs to its end found every element it touched
    allocated, and allocated or freed nothing. *)
Lemma sum_vectors_loop_defined (n i : nat) (v1 v2 v3 : addr) (h h' : heap) (u : unit) :
  sum_vectors_loop n i v1 v2 v3 h = Some (u, h') ->
  (forall k, i <= k < i + n ->
     is_Some (floats h !! (v1 + k)) /\ is_Some (floats h !! (v2 + k)) /\
     is_Some (floats h !! (v3 + k))) /\
  same_cells h h'.
Proof.
  revert i h. induction n as [|n IH]; intros i h H.
  - injection H as _ <-. split; [intros k Hk; lia|by intros q].
  - rewrite sum_vectors_loop_step in H.
    destruct (floats h !! (v1 + i)) as [e1|] eqn:E1; [|discriminate H].
    destruct (floats h !! (v2 + i)) as [e2|] eqn:E2; [|discriminate H].
    destruct (floats h !! (v3 + i)) as [e3|] eqn:E3; [|discriminate H].
    apply IH in H as [Hall Hsame]. simpl in Hall.
    assert (forall q, is_Some (<[v1 + i := f32_add (f32_add e1 e2) e3]> (floats h) !! q)
                      <-> is_Some (floats h !! q)) as Hins
      by (intros q; apply insert_same_cells; eauto).
    split.
    + intros k Hk. destruct (decide (k = i)) as [->|Hne]; [eauto|].
      destruct (Hall k) as (A1 & A2 & A3); [lia|].
      rewrite !Hins in A1, A2, A3. auto.
    + intros q. rewrite (Hsame q). simpl. apply Hins.
Qed.

(** The loop stores sums of what it loads, so binary32 cells stay
    binary32 cells. *)
Lemma sum_vectors_loop_valid (n i : nat) (v1 v2 v3 : addr) (h h' : heap) (u : unit) :
  all_valid h -> sum_vectors_loop n i v1 v2 v3 h = Some (u, h') -> all_valid h'.
Proof.
  revert i h. induction n as [|n IH]; intros i h Hv H.
  - by injection H as _ <-.
  - rewrite sum_vectors_loop_step in H.
    destruct (floats h !! (v1 + i)) as [e1|] eqn:E1; [|discriminate H].
    destruct (floats h !! (v2 + i)) as [e2|] eqn:E2; [|discriminate H].
    destruct (floats h !! (v3 + i)) as [e3|] eqn:E3; [|discriminate H].
    apply IH in H; [exact H|].
    intros q e. simpl. destruct (decide (v1 + i = q)) as [<-|Hne].
    + rewrite lookup_insert_eq. intros [= <-].
      unfold f32_add, valid32. apply add_valid; [done| |by eapply Hv].
      apply add_valid; [done|by eapply Hv..].
    + rewrite lookup_insert_ne by done. apply Hv.
Qed.

(** [n + m] iterations are [n] iterations followed by [m]. *)
Lemma sum_vectors_loop_app (n m i : nat) (v1 v2 v3 : addr) (h : heap) :
  sum_vectors_loop (n + m) i v1 v2 v3 h =
  match sum_vectors_loop n i v1 v2 v3 h with
  | Some (_, h1) => sum_vectors_loop m (i + n) v1 v2 v3 h1
  | None => None
  end.
Proof.
  revert i h. induction n as [|n IH]; intros i h.
  - simpl. unfold ret. by rewrite Nat.add_0_r.
  - change (S n + m) with (S (n + m)). rewrite !sum_vectors_loop_step.
    destruct (floats h !! (v1 + i)) as [e1|]; [|reflexivity].
    destruct (floats h !! (v2 + i)) as [e2|]; [|reflexivity].
    destruct (floats h !! (v3 + i)) as [e3|]; [|reflexivity].
    rewrite IH. by replace (S i + n) with (i + S n) by lia.
Qed.

(** Starting the index at [k] is starting the pointers [k] elements on. *)
Lemma sum_vectors_loop_shift (m i k : nat) (v1 v2 v3 : addr) (h : heap) :
  sum_vectors_loop m (i + k) v1 v2 v3 h
  = sum_vectors_loop m i (v1 + k) (v2 + k) (v3 + k) h.
Proof.
  revert i h. induction m as [|m IH]; intros i h; [reflexivity|].
  rewrite !sum_vectors_loop_step.
  replace (v1 + k + i) with (v1 + (i + k)) by lia.
  replace (v2 + k + i) with (v2 + (i + k)) by lia.
  replace (v3 + k + i) with (v3 + (i + k)) by lia.
  destruct (floats h !! (v1 + (i + k))) as [e1|]; [|reflexivity].
  destruct (floats h !! (v2 + (i + k))) as [e2|]; [|reflexivity].
  destruct (floats h !! (v3 + (i + k))) as [e3|]; [|reflexivity].
  apply (IH (S i)).
Qed.

(** X4. [sum_vectors] has a result exactly when the [len] elements at
    each of the three pointers are allocated; an element missing within
    the first [len] of any of them leaves the call without defined
    behaviour, however large the others are. *)
Theorem sum_vectors_defined_iff (h : heap) (v1 v2 v3 : addr) (len : nat) :
  is_Some (sum_vectors v1 v2 v3 len h) <->
  allocated h v1 len /\ allocated h v2 len /\ allocated h v3 len.
Proof.
  unfold sum_vectors, allocated. split.
  - intros [[u h'] H]. apply sum_vectors_loop_defined in H as [Hall _].
    repeat split; intros k Hk; destruct (Hall k) as (A1 & A2 & A3); auto; lia.
  - intros (A1 & A2 & A3).
    destruct (sum_vectors_loop_frame v1 v2 v3 len 0 h) as (h' & -> & _);
      try (intros k Hk; (apply A1 || apply A2 || apply A3); lia).
    eauto.
Qed.

(** X6. Summing the first [n + m] elements is summing the first [n]
    and then the [m] elements that follow them: a long call splits
    into chunks at any point, failures included. *)
Theorem sum_vectors_split (h : heap) (v1 v2 v3 : addr) (n m : nat) :
  sum_vectors v1 v2 v3 (n + m) h
  = (run! sum_vectors v1 v2 v3 n in sum_vectors (v1 + n) (v2 + n) (v3 + n) m) h.
Proof.
  unfold sum_vectors, bind. rewrite sum_vectors_loop_app.
  destruct (sum_vectors_loop n 0 v1 v2 v3 h) as [[u h1]|]; [|reflexivity].
  apply (sum_vectors_loop_shift m 0 n).
Qed.

(** X10. A call on a memory whose [float] cells all hold binary32
    values leaves such a memory. *)
Theorem sum_vectors_keeps_valid (h h' : heap) (v1 v2 v3 : addr) (len : nat) :
  all_valid h -> sum_vectors v1 v2 v3 len h = Some (tt, h') -> all_valid h'.
Proof. intros Hv H. by eapply sum_vectors_loop_valid. Qed.

(** X11. The fields of the record [sum_structs] returns are values of
    their types whenever those of the two inputs are. *)
Theorem sum_structs_valid (h h' : heap) (s1 s2 : addr) (r1 r2 out : MyStruct) :
  structs h !! s1 = Some r1 -> structs h !! s2 = Some r2 ->
  valid32 (y r1) = true -> valid64 (z r1) = true ->
  valid32 (y r2) = true -> valid64 (z r2) = true ->
  sum_structs s1 s2 h = Some (out, h') ->
  valid_record out.
Proof.
  intros E1 E2 Y1 Z1 Y2 Z2 H. unfold sum_structs, bind, ret in H.
  destruct (load_struct_cases s1 h) as [(q1 & F1 & L1)|[F1 L1]]; [|congruence].
  rewrite L1 in H.
  destruct (load_struct_cases s2 h) as [(q2 & F2 & L2)|[F2 L2]]; [|congruence].
  rewrite L2 in H. injection H as <- _.
  assert (q1 = r1) as -> by congruence. assert (q2 = r2) as -> by congruence.
  unfold valid_record. simpl. split; [apply wrap_in_range|].
  split; [by apply add_valid|by apply add_valid].
Qed.

(** X10, witness: the arrays of the [vector] branch. *)
Lemma sum_vectors_keeps_valid_witness :
  all_valid (heap_after (sum_vectors 0 3 6 3 Main.vector_frame) Main.vector_frame).
Proof.
  apply (sum_vectors_keeps_valid Main.vector_frame _ 0 3 6 3).
  - apply (bool_decide_unpack _). vm_compute. exact I.
  - vm_compute. reflexivity.
Defined.

(** X11, witness: the records of the [struct] branch. *)
Lemma sum_structs_valid_witness :
  valid_record {| x := Int32.add 1 4;
                  y := f32_add (Main.f32_lit 25 (-1)) (Main.f32_lit 15 (-1));
                  z := f64_add (Main.f64_lit 325 (-2)) (Main.f64_lit 75 (-2)) |}.
Proof.
  apply (sum_structs_valid Main.struct_frame Main.struct_frame 0 1
           {| x := 1; y := Main.f32_lit 25 (-1); z := Main.f64_lit 325 (-2) |}
           {| x := 4; y := Main.f32_lit 15 (-1); z := Main.f64_lit 75 (-2) |});
    vm_compute; reflexivity.
Defined.

End VectorLoop.

(** * Further properties of [main] *)

Section PrintLoop.

Import Main MoreSpec.

#[local] Open Scope nat_scope.

Lemma append_nil_r (s : string) : s +:+ EmptyString = s.
Proof.
  induction s as [|c s IH]; [reflexivity|].
  change (String c (s +:+ EmptyString) = String c s). by f_equal.
Qed.

Lemma append_assoc (s1 s2 s3 : string) : (s1 +:+ s2) +:+ s3 = s1 +:+ s2 +:+ s3.
Proof.
  induction s1 as [|c s1 IH]; [reflexivity|].
  change (String c ((s1 +:+ s2) +:+ s3) = String c (s1 +:+ s2 +:+ s3)). by f_equal.
Qed.

Lemma print_vector_loop_from (l : list binary32) (i : nat) (v : addr) (len : nat) (h : heap) :
  (forall k e, l !! k = Some e -> floats h !! (v + (i + k)) = Some e) ->
  i + length l = len ->
  exists t,
    print_vector_loop (length l) i v len h = Some (t, h) /\
    stdout_of t = String.concat ", " (List.map fmt l) /\
    Forall is_stdout t.
Proof.
  revert i. induction l as [|e l IH]; intros i Hl Hlen.
  - exists []. simpl. unfold ret. auto.
  - destruct (IH (S i)) as (t & Hrun & Hout & Hall).
    + intros k e' Hk. replace (S i + k) with (i + S k) by lia. by apply Hl.
    + simpl in Hlen. lia.
    + assert (floats h !! (v + i) = Some e) as He.
      { replace (v + i) with (v + (i + 0)) by (f_equal; lia). by apply Hl. }
      eexists. split; [|split].
      * simpl. unfold bind at 1. rewrite (load_float_Some _ _ _ He).
        unfold bind. rewrite Hrun. reflexivity.
      * simpl stdout_of. rewrite Hout.
        destruct l as [|e' l].
        -- simpl in *. replace (i + 1 <? len) with false
             by (symmetry; apply Nat.ltb_ge; lia).
           by rewrite !append_nil_r.
        -- replace (i + 1 <? len) with true
             by (symmetry; apply Nat.ltb_lt; simpl in Hlen; lia).
           change (List.map fmt (e :: e' :: l)) with (fmt e :: List.map fmt (e' :: l)).
           change (String.concat ", " (fmt e :: List.map fmt (e' :: l)))
             with (fmt e +:+ ", " +:+ String.concat ", " (List.map fmt (e' :: l))).
           by rewrite append_assoc.
      * constructor; [exact I|exact Hall].
Qed.

(** X19. The printing loop of the [vector] branch writes the [len]
    elements in order, each as [%f], with [", "] between two elements
    and nothing after the last; it writes nothing for [len = 0] and
    leaves the memory as it was. *)
Theorem print_vector_loop_joins (l : list binary32) (v : addr) (h : heap) :
  holds h v l ->
  exists t,
    print_vector_loop (length l) 0 v (length l) h = Some (t, h) /\
    stdout_of t = String.concat ", " (List.map fmt l) /\
    Forall is_stdout t.
Proof.
  intros Hl. apply print_vector_loop_from; [|reflexivity].
  intros k e Hk. by apply Hl.
Qed.

(** X19, witness: two elements, 0.5 and 2. *)
Lemma print_vector_loop_joins_witness :
  exists t,
    print_vector_loop 2 0 0 2
      (Heap (list_to_map [(0, f32_lit 5 (-1)); (1, f32_lit 2 0)]) ∅)
      = Some (t, Heap (list_to_map [(0, f32_lit 5 (-1)); (1, f32_lit 2 0)]) ∅) /\
    stdout_of t = String.concat ", " (List.map fmt [f32_lit 5 (-1); f32_lit 2 0]) /\
    Forall is_stdout t.
Proof.
  apply (print_vector_loop_joins [f32_lit 5 (-1); f32_lit 2 0] 0
           (Heap (list_to_map [(0, f32_lit 5 (-1)); (1, f32_lit 2 0)]) ∅)).
  intros i e Hi. destruct i as [|[|i]]; simpl in Hi; try discriminate;
    injection Hi as <-; vm_compute; reflexivity.
Defined.

Example print_two_elements :
  String.concat ", " (List.map fmt [f32_lit 5 (-1); f32_lit 2 0]) = "0.500000, 2.000000".
Proof. vm_compute. reflexivity. Qed.

End PrintLoop.

Section EarlyReturns.

Import Getopt Main RunSpec MoreSpec.

(** Accepted options keep the loop going. *)
Lemma parse_options_accepted (prog : string) (rs1 rs : list result) (cfg : config) :
  Forall accepted rs1 ->
  exists cfg', parse_options prog (rs1 ++ rs) cfg = parse_options prog rs cfg'.
Proof.
  intros H. revert cfg. induction H as [|r rs1 Hr _ IH]; intros cfg; [by exists cfg|].
  destruct r as [o v|diag]; [|done].
  destruct Hr as [->|[->|[->|[->| ->]]]]; simpl; apply IH.
Qed.

(** X12. When [getopt_long] reports [-h] / [--help] after options that
    are all among [m], [u], [a], [b], [c], the program writes the usage
    text to the standard output and returns 0; what follows on the
    command line, the mode given and [--use-lib] play no part: no
    library is opened and nothing is computed. *)
Theorem help_returns_zero (prog : string) (args : list string) (env : dl_env)
    (rs1 rs2 : list result) (v : string) :
  getopt_long prog args optstring long_options = rs1 ++ Opt "h" v :: rs2 ->
  Forall accepted rs1 ->
  main prog args env = ([Stdout (usage_text prog)], Some 0).
Proof.
  intros Hrs Hacc. unfold main. rewrite Hrs.
  destruct (parse_options_accepted prog rs1 (Opt "h" v :: rs2) default_config Hacc)
    as [cfg' ->].
  reflexivity.
Qed.

(** X12, witness: [--help] after [--use-lib --mode bogus], before a
    rejected option. *)
Lemma help_returns_zero_witness :
  main "./binary_playground" ["--use-lib"; "--mode"; "bogus"; "--help"; "--nope"] so_present
  = ([Stdout (usage_text "./binary_playground")], Some 0).
Proof.
  apply (help_returns_zero _ _ _
           [Opt "u" EmptyString; Opt "m" "bogus"]
           [Err (diag_unrecognized "./binary_playground" "nope")] EmptyString).
  - vm_compute. reflexivity.
  - repeat (constructor; [simpl; auto 7|]). constructor.
Defined.

(** X13. When [getopt_long] rejects an option after options that are
    all among [m], [u], [a], [b], [c], the program writes the usage text
    after the diagnostic of [getopt_long] and returns 1, without opening
    a library or computing anything. *)
Theorem rejected_option_fails (prog : string) (args : list string) (env : dl_env)
    (rs1 rs2 : list result) (diag : string) :
  getopt_long prog args optstring long_options = rs1 ++ Err diag :: rs2 ->
  Forall accepted rs1 ->
  main prog args env = ([Stderr diag; Stdout (usage_text prog)], Some 1).
Proof.
  intros Hrs Hacc. unfold main. rewrite Hrs.
  destruct (parse_options_accepted prog rs1 (Err diag :: rs2) default_config Hacc)
    as [cfg' ->].
  reflexivity.
Qed.

(** X13, witness: [--mode] at the end of the command line, without its
    argument. *)
Lemma rejected_option_fails_witness :
  main "./binary_playground" ["--a"; "1"; "--mode"] no_library
  = ([Stderr (diag_long_missing "./binary_playground" "mode");
      Stdout (usage_text "./binary_playground")], Some 1).
Proof.
  apply (rejected_option_fails _ _ _ [Opt "a" "1"] []).
  - vm_compute. reflexivity.
  - repeat (constructor; [simpl; auto 7|]). constructor.
Defined.

(** X14. With [--use-lib], when neither [./libbinary_playground.dylib]
    nor [./libbinary_playground.so] can be opened, the program tries
    them in this order, writes [Failed to open dynamic library:] with
    the loader's text to the standard error and returns 1; the mode is
    not looked at, so even an unknown mode is not reported. *)
Theorem load_failure_fails (prog : string) (args : list string) (env : dl_env)
    (cfg : config) (t1 : list event) :
  parse_options prog (getopt_long prog args optstring long_options) default_config
    = (t1, Parsed cfg) ->
  use_lib cfg = true ->
  dlopen env dylib_name = None ->
  dlopen env so_name = None ->
  main prog args env
  = ([Dlopen dylib_name false; Dlopen so_name false;
      Stderr ("Failed to open dynamic library: " +:+ dlerror env +:+ Libc.nl)], Some 1).
Proof.
  intros Hparse Hu Hd Hs.
  rewrite (main_after_options _ _ _ _ _ Hparse).
  unfold after_options, load_library. by rewrite Hu, Hd, Hs.
Qed.

(** X14, witness: [--use-lib --mode bogus] in an empty directory. *)
Lemma load_failure_fails_witness :
  main "./binary_playground" ["--use-lib"; "--mode"; "bogus"] no_library
  = ([Dlopen dylib_name false; Dlopen so_name false;
      Stderr ("Failed to open dynamic library: " +:+ dlerror no_library +:+ Libc.nl)],
     Some 1).
Proof.
  apply (load_failure_fails _ _ _ (set_mode "bogus" (set_use_lib true default_config)) []).
  - vm_compute. reflexivity.
  - reflexivity.
  - reflexivity.
  - reflexivity.
Defined.

(** X15. A run whose command line has no [-u] / [--use-lib] does not
    depend on the libraries present: it is the same, trace and status,
    in every loader environment. *)
Theorem no_use_lib_ignores_libraries (prog : string) (args : list string)
    (env env' : dl_env) :
  occurs "u" (getopt_long prog args optstring long_options) = false ->
  main prog args env = main prog args env'.
Proof.
  intros Hocc. unfold main.
  destruct (parse_options prog _ default_config) as [t1 [cfg|st]] eqn:Hparse; [|reflexivity].
  apply parse_options_parsed in Hparse as [-> ->].
  unfold final_config. simpl. rewrite Hocc. reflexivity.
Qed.

(** X15, witness: the scalar scenario with and without a library in
    the directory. *)
Lemma no_use_lib_ignores_libraries_witness :
  main "./binary_playground" scalar_args so_present
  = main "./binary_playground" scalar_args no_library.
Proof.
  apply (no_use_lib_ignores_libraries "./binary_playground" scalar_args so_present no_library).
  vm_compute. reflexivity.
Defined.

End EarlyReturns.

Section RunShape.

Import Getopt Main RunSpec MoreSpec.

Lemma resolved_Some {F : Type} (u : bool) (handle : option (string * library))
    (sym : library -> option F) (f : F) :
  resolved u handle sym = Some f -> u = true /\ is_Some handle.
Proof.
  unfold resolved. destruct u; [|discriminate].
  destruct handle as [[libname l]|]; [eauto|discriminate].
Qed.

Lemma print_vector_loop_stdout (n i : nat) (v1 : addr) (len : nat) (h h' : heap)
    (t : list event) :
  print_vector_loop n i v1 len h = Some (t, h') -> Forall is_stdout t.
Proof.
  revert i h h' t. induction n as [|n IH]; intros i h h' t H.
  - injection H as <- _. constructor.
  - simpl in H. unfold bind in H.
    destruct (load_float (v1 + i)%nat h) as [[e h0]|]; [|discriminate H].
    destruct (print_vector_loop n (S i) v1 len h0) as [[rest h1]|] eqn:E; [|discriminate H].
    injection H as <- _. constructor; [exact I|by eapply IH].
Qed.

(** What a branch writes: the call of the function of the mode, then
    lines on the standard output. *)
Lemma run_scalar_shape (cfg : config) (handle : option (string * library)) :
  exists b rest,
    run_scalar cfg handle = Call "sum_scalars" b :: rest /\
    Forall is_stdout rest /\ (b = true -> use_lib cfg = true /\ is_Some handle).
Proof.
  unfold run_scalar.
  destruct (resolved (use_lib cfg) handle lib_sum_scalars) as [f|] eqn:R.
  - eexists true, _. split; [reflexivity|]. split; [repeat constructor|].
    intros _. by eapply resolved_Some.
  - eexists false, _. split; [reflexivity|]. split; [repeat constructor|done].
Qed.

Lemma run_vector_shape (cfg : config) (handle : option (string * library)) (t : list event) :
  run_vector cfg handle = Some t ->
  exists b rest,
    t = Call "sum_vectors" b :: rest /\
    Forall is_stdout rest /\ (b = true -> use_lib cfg = true /\ is_Some handle).
Proof.
  unfold run_vector. intros H.
  destruct (resolved (use_lib cfg) handle lib_sum_vectors) as [f|] eqn:R; unfold bind in H.
  - destruct (f 0%nat 3%nat 6%nat 3%nat vector_frame) as [[[] h1]|]; [|discriminate H].
    destruct (print_vector_loop 3 0 0%nat 3 h1) as [[elems h2]|] eqn:E; [|discriminate H].
    injection H as <-. apply print_vector_loop_stdout in E.
    eexists true, _. split; [reflexivity|]. split.
    + constructor; [exact I|]. apply Forall_app. split; [exact E|repeat constructor].
    + intros _. by eapply resolved_Some.
  - destruct (sum_vectors 0%nat 3%nat 6%nat 3%nat vector_frame) as [[[] h1]|]; [|discriminate H].
    destruct (print_vector_loop 3 0 0%nat 3 h1) as [[elems h2]|] eqn:E; [|discriminate H].
    injection H as <-. apply print_vector_loop_stdout in E.
    eexists false, _. split; [reflexivity|]. split; [|done].
    constructor; [exact I|]. apply Forall_app. split; [exact E|repeat constructor].
Qed.

Lemma run_struct_shape (cfg : config) (handle : option (string * library)) (t : list event) :
  run_struct cfg handle = Some t ->
  exists b rest,
    t = Call "sum_structs" b :: rest /\
    Forall is_stdout rest /\ (b = true -> use_lib cfg = true /\ is_Some handle).
Proof.
  unfold run_struct. intros H.
  destruct (resolved (use_lib cfg) handle lib_sum_structs) as [f|] eqn:R.
  - destruct (f 0%nat 1%nat struct_frame) as [[out h1]|]; [|discriminate H].
    injection H as <-. eexists true, _. split; [reflexivity|].
    split; [repeat constructor|]. intros _. by eapply resolved_Some.
  - destruct (sum_structs 0%nat 1%nat struct_frame) as [[out h1]|]; [|discriminate H].
    injection H as <-. eexists false, _. split; [reflexivity|].
    split; [repeat constructor|done].
Qed.

(** The two ways a dispatch returns. *)
Lemma dispatch_shape (prog : string) (cfg : config) (handle : option (string * library))
    (t : list event) (st : Z) :
  dispatch prog cfg handle = (t, Some st) ->
  (st = 1 /\ unknown_mode (mode cfg) /\
   t = unknown_mode_report prog (mode cfg) ++ close_handle handle) \/
  (st = 0 /\
   exists b rest,
     t = Call (mode_symbol (mode cfg)) b :: rest ++ close_handle handle /\
     Forall is_stdout rest /\ (b = true -> use_lib cfg = true /\ is_Some handle)).
Proof.
  unfold dispatch, finish. intros H.
  destruct (String.eqb_spec (mode cfg) "scalar") as [E|N1].
  { right. injection H as <- <-. split; [reflexivity|].
    destruct (run_scalar_shape cfg handle) as (b & rest & -> & Hr & Hb).
    exists b, rest. by rewrite E. }
  destruct (String.eqb_spec (mode cfg) "vector") as [E|N2].
  { right. destruct (run_vector cfg handle) as [t'|] eqn:R; [|discriminate H].
    injection H as <- <-. split; [reflexivity|].
    destruct (run_vector_shape cfg handle t' R) as (b & rest & -> & Hr & Hb).
    exists b, rest. by rewrite E. }
  destruct (String.eqb_spec (mode cfg) "struct") as [E|N3].
  { right. destruct (run_struct cfg handle) as [t'|] eqn:R; [|discriminate H].
    injection H as <- <-. split; [reflexivity|].
    destruct (run_struct_shape cfg handle t' R) as (b & rest & -> & Hr & Hb).
    exists b, rest. by rewrite E. }
  left. injection H as <- <-. done.
Qed.

(** How the option loop returns from inside. *)
Lemma parse_options_returned_shape (prog : string) (rs : list result) (cfg0 : config)
    (t : list event) (st : Z) :
  parse_options prog rs cfg0 = (t, Returned st) ->
  (st = 0 /\ t = print_usage prog) \/
  (st = 1 /\ (t = print_usage prog \/ exists diag, t = Stderr diag :: print_usage prog)).
Proof.
  revert cfg0. induction rs as [|[o v|diag] rs IH]; intros cfg0 H.
  - discriminate H.
  - simpl in H.
    destruct (Ascii.eqb o "m"); [by eapply IH|].
    destruct (Ascii.eqb o "u"); [by eapply IH|].
    destruct (Ascii.eqb o "a"); [by eapply IH|].
    destruct (Ascii.eqb o "b"); [by eapply IH|].
    destruct (Ascii.eqb o "c"); [by eapply IH|].
    destruct (Ascii.eqb o "h"); injection H as <- <-; auto.
  - simpl in H. injection H as <- <-. right. split; [reflexivity|]. right. eauto.
Qed.

(** The three ways [main] returns. *)
Lemma main_cases (prog : string) (args : list string) (env : dl_env)
    (t : list event) (st : Z) :
  main prog args env = (t, Some st) ->
  parse_options prog (getopt_long prog args optstring long_options) default_config
    = (t, Returned st) \/
  (exists cfg,
     parse_options prog (getopt_long prog args optstring long_options) default_config
       = ([], Parsed cfg) /\
     use_lib cfg = true /\ st = 1 /\
     t = [Dlopen dylib_name false; Dlopen so_name false;
          Stderr ("Failed to open dynamic library: " +:+ dlerror env +:+ Libc.nl)]) \/
  (exists cfg t2 handle t3,
     parse_options prog (getopt_long prog args optstring long_options) default_config
       = ([], Parsed cfg) /\
     load_library env (use_lib cfg) = (t2, Some handle) /\
     dispatch prog cfg handle = (t3, Some st) /\
     t = t2 ++ t3).
Proof.
  unfold main.
  destruct (parse_options prog _ default_config) as [t1 [cfg|st1]] eqn:Hparse.
  - apply parse_options_parsed in Hparse as [-> _].
    destruct (load_library env (use_lib cfg)) as [t2 [handle|]] eqn:Hload.
    + destruct (dispatch prog cfg handle) as [t3 st3] eqn:Hdisp.
      intros H. injection H as <- ->. right. right.
      exists cfg, t2, handle, t3. auto.
    + intros H. injection H as <- <-. right. left. exists cfg.
      unfold load_library in Hload. destruct (use_lib cfg); [|discriminate Hload].
      destruct (dlopen env dylib_name); [discriminate Hload|].
      destruct (dlopen env so_name); [discriminate Hload|].
      injection Hload as <-. auto.
  - intros H. injection H as <- <-. by left.
Qed.

Lemma stderr_of_app (t t' : list event) : stderr_of (t ++ t') = stderr_of t +:+ stderr_of t'.
Proof.
  induction t as [|e t IH]; [reflexivity|].
  destruct e; simpl; rewrite IH; try reflexivity. by rewrite append_assoc.
Qed.

Lemma stdout_only_no_stderr (t : list event) :
  Forall is_stdout t -> stderr_of t = EmptyString.
Proof. induction 1 as [|e t He _ IH]; [reflexivity|]. by destruct e. Qed.

Lemma stdout_only_no_calls (t : list event) : Forall is_stdout t -> calls t = [].
Proof. induction 1 as [|e t He _ IH]; [reflexivity|]. by destruct e. Qed.

Lemma close_handle_no_stderr (handle : option (string * library)) :
  stderr_of (close_handle handle) = EmptyString.
Proof. by destruct handle as [[libname l]|]. Qed.

Lemma load_library_no_stderr (env : dl_env) (u : bool) (t : list event)
    (handle : option (string * library)) :
  load_library env u = (t, Some handle) -> stderr_of t = EmptyString.
Proof.
  unfold load_library. intros H. destruct u.
  - destruct (dlopen env dylib_name) as [l|].
    + by injection H as <- _.
    + destruct (dlopen env so_name) as [l|]; [by injection H as <- _|discriminate H].
  - by injection H as <- _.
Qed.

(** X17. Whenever [main] returns, its status is 0 or 1, and a run that
    returns 0 has written nothing to the standard error. *)
Theorem exit_status_and_stderr (prog : string) (args : list string) (env : dl_env)
    (t : list event) (st : Z) :
  main prog args env = (t, Some st) ->
  (st = 0 \/ st = 1) /\ (st = 0 -> stderr_of t = EmptyString).
Proof.
  intros H. apply main_cases in H as [Hret|[(cfg & _ & _ & -> & ->)|
    (cfg & t2 & handle & t3 & _ & Hload & Hdisp & ->)]].
  - apply parse_options_returned_shape in Hret as [[-> ->]|[-> _]]; split; auto; done.
  - split; [auto|done].
  - apply load_library_no_stderr in Hload.
    apply dispatch_shape in Hdisp as [(-> & _ & _)|(-> & b & rest & -> & Hr & _)].
    + split; [auto|done].
    + split; [auto|]. intros _.
      rewrite stderr_of_app, Hload. simpl.
      by rewrite stderr_of_app, (stdout_only_no_stderr _ Hr), close_handle_no_stderr.
Qed.

(** X17, witness: the struct mode. *)
Lemma exit_status_and_stderr_witness :
  (0 = 0 \/ 0 = 1) /\
  (0 = 0 ->
   stderr_of [Call "sum_structs" false; Stdout (struct_line +:+ Libc.nl)] = EmptyString).
Proof.
  apply (exit_status_and_stderr "./binary_playground" ["--mode"; "struct"] no_library).
  vm_compute. reflexivity.
Defined.

(** X18. A run that returns 1, or that returns from inside the option
    loop, calls none of the three functions.  A run whose option loop
    runs to its end and that returns 0 calls exactly one: the function
    named after the mode the loop left, taken from the library only if
    [--use-lib] was given. *)
Theorem one_call_per_run (prog : string) (args : list string) (env : dl_env)
    (t : list event) (st : Z) :
  main prog args env = (t, Some st) ->
  (st = 1 -> calls t = []) /\
  (forall t1 st1,
     parse_options prog (getopt_long prog args optstring long_options) default_config
       = (t1, Returned st1) ->
     calls t = []) /\
  (forall t1 cfg,
     parse_options prog (getopt_long prog args optstring long_options) default_config
       = (t1, Parsed cfg) ->
     st = 0 ->
     exists b,
       calls t = [Call (mode_symbol (mode cfg)) b] /\ (b = true -> use_lib cfg = true)).
Proof.
  intros H. apply main_cases in H as [Hret|[(cfg & Hparse & _ & -> & ->)|
    (cfg & t2 & handle & t3 & Hparse & Hload & Hdisp & ->)]].
  - pose proof Hret as Hc. apply parse_options_returned in Hc as (_ & _ & Hc).
    split; [done|]. split; [done|].
    intros t1 cfg Hparse. rewrite Hparse in Hret. discriminate Hret.
  - split; [done|]. split; [done|]. intros t1 cfg' _ Hst. discriminate Hst.
  - apply load_library_no_calls in Hload.
    apply dispatch_shape in Hdisp as [(-> & _ & ->)|(-> & b & rest & -> & Hr & Hb)].
    + assert (calls (t2 ++ unknown_mode_report prog (mode cfg) ++ close_handle handle) = [])
        as Hnone by (by rewrite !calls_app, Hload, close_handle_no_calls).
      split; [done|]. split; [done|]. intros t1 cfg' _ Hst. discriminate Hst.
    + split; [intros Hst; discriminate Hst|]. split.
      * intros t1 st1 Hret. rewrite Hret in Hparse. discriminate Hparse.
      * intros t1 cfg' Hparse' _. rewrite Hparse' in Hparse.
        injection Hparse as _ ->. exists b. split; [|intros Hbt; by apply Hb].
        rewrite calls_app, Hload. simpl.
        by rewrite calls_app, (stdout_only_no_calls _ Hr), close_handle_no_calls.
Qed.

(** X18, witness: the scalar scenario. *)
Lemma one_call_per_run_witness :
  (0 = 1 -> calls [Call "sum_scalars" false; Stdout (scalar_line +:+ Libc.nl)] = []) /\
  (forall t1 st1,
     parse_options "./binary_playground"
       (getopt_long "./binary_playground" scalar_args optstring long_options) default_config
       = (t1, Returned st1) ->
     calls [Call "sum_scalars" false; Stdout (scalar_line +:+ Libc.nl)] = []) /\
  (forall t1 cfg,
     parse_options "./binary_playground"
       (getopt_long "./binary_playground" scalar_args optstring long_options) default_config
       = (t1, Parsed cfg) ->
     0 = 0 ->
     exists b,
       calls [Call "sum_scalars" false; Stdout (scalar_line +:+ Libc.nl)]
         = [Call (mode_symbol (mode cfg)) b] /\ (b = true -> use_lib cfg = true)).
Proof.
  apply (one_call_per_run "./binary_playground" scalar_args no_library).
  vm_compute. reflexivity.
Defined.

End RunShape.

Section Libraries.

Import Getopt Main RunSpec MoreSpec.

Lemma run_vector_builtin_always (cfg : config) (handle : option (string * library)) :
  resolved (use_lib cfg) handle lib_sum_vectors = None ->
  run_vector cfg handle = run_vector (set_use_lib false cfg) None /\
  is_Some (run_vector cfg handle).
Proof.
  intros R. unfold run_vector. rewrite R. simpl. split; [reflexivity|].
  vm_compute. eauto.
Qed.

Lemma run_struct_builtin_always (cfg : config) (handle : option (string * library)) :
  resolved (use_lib cfg) handle lib_sum_structs = None ->
  run_struct cfg handle = run_struct (set_use_lib false cfg) None /\
  is_Some (run_struct cfg handle).
Proof.
  intros R. unfold run_struct. rewrite R. simpl. split; [reflexivity|].
  vm_compute. eauto.
Qed.

(** X16. When the library that was opened does not export the function
    of the mode, the program writes and returns what it does without
    [--use-lib], and then closes the library: the missing symbol is
    replaced by the built-in function, silently. *)
Theorem missing_symbol_falls_back (prog : string) (cfg : config) (libname : string)
    (l : library) :
  lacks_symbol (mode cfg) l ->
  dispatch prog cfg (Some (libname, l))
  = ((dispatch prog (set_use_lib false cfg) None).1 ++ [Dlclose libname],
     (dispatch prog (set_use_lib false cfg) None).2).
Proof.
  intros (Hs & Hv & Hr). unfold dispatch, finish. simpl mode.
  destruct (String.eqb_spec (mode cfg) "scalar") as [E|N1].
  { simpl. unfold run_scalar, resolved. rewrite (Hs E). by destruct (use_lib cfg). }
  destruct (String.eqb_spec (mode cfg) "vector") as [E|N2].
  { destruct (run_vector_builtin_always cfg (Some (libname, l))) as [-> [t Ht]].
    - unfold resolved. rewrite (Hv E). by destruct (use_lib cfg).
    - rewrite Ht. simpl. by rewrite app_nil_r. }
  destruct (String.eqb_spec (mode cfg) "struct") as [E|N3].
  { destruct (run_struct_builtin_always cfg (Some (libname, l))) as [-> [t Ht]].
    - unfold resolved. rewrite (Hr E). by destruct (use_lib cfg).
    - rewrite Ht. simpl. by rewrite app_nil_r. }
  simpl. reflexivity.
Qed.

(** X16, witness: the vector mode with a library that exports nothing. *)
Lemma missing_symbol_falls_back_witness :
  dispatch "./binary_playground" (set_use_lib true (set_mode "vector" default_config))
    (Some (dylib_name, empty_library))
  = (vector_trace ++ [Dlclose dylib_name], Some 0).
Proof.
  apply (missing_symbol_falls_back "./binary_playground"
           (set_use_lib true (set_mode "vector" default_config)) dylib_name empty_library).
  unfold lacks_symbol. simpl. auto.
Defined.

Lemma load_library_loaded (env : dl_env) (u : bool) (t : list event) (libname : string)
    (l : library) :
  load_library env u = (t, Some (Some (libname, l))) ->
  u = true /\ dlopen env libname = Some l /\
  ((libname = dylib_name /\ t = [Dlopen dylib_name true]) \/
   (libname = so_name /\ dlopen env dylib_name = None /\
    t = [Dlopen dylib_name false; Dlopen so_name true])).
Proof.
  unfold load_library. intros H. destruct u; [|discriminate H].
  destruct (dlopen env dylib_name) as [l1|] eqn:D.
  - injection H as <- <- <-. auto.
  - destruct (dlopen env so_name) as [l2|] eqn:S; [|discriminate H].
    injection H as <- <- <-. split; [done|]. split; [done|]. right. auto.
Qed.

(** X23. In the scalar mode, when the library that was opened exports
    [sum_scalars], the line printed shows the three inputs and what the
    library's function returns for them; the built-in function is not
    consulted, and the library is closed before [main] returns 0. *)
Theorem library_sum_scalars_used (prog : string) (args : list string) (env : dl_env)
    (cfg : config) (t1 t2 : list event) (libname : string) (l : library)
    (f : binary32 -> binary32 -> binary32 -> binary32) :
  parse_options prog (getopt_long prog args optstring long_options) default_config
    = (t1, Parsed cfg) ->
  mode cfg = "scalar" ->
  load_library env (use_lib cfg) = (t2, Some (Some (libname, l))) ->
  lib_sum_scalars l = Some f ->
  main prog args env
  = (t2 ++ [Call "sum_scalars" true;
            Stdout (scalar_report (a cfg) (b cfg) (c cfg) (f (a cfg) (b cfg) (c cfg)));
            Dlclose libname],
     Some 0).
Proof.
  intros Hparse Hmode Hload Hf.
  rewrite (main_after_options _ _ _ _ _ Hparse). unfold after_options. rewrite Hload.
  apply load_library_loaded in Hload as (Hu & _ & _).
  unfold dispatch. rewrite Hmode. simpl.
  unfold run_scalar, resolved. rewrite Hu, Hf. reflexivity.
Qed.

(** X23, witness: [--use-lib] where the [.so] exports [sum_scalars]. *)
Lemma library_sum_scalars_used_witness :
  main "./binary_playground" ["--use-lib"; "--a"; "1.2"; "--b"; "3.4"; "--c"; "5.6"] so_present
  = ([Dlopen dylib_name false; Dlopen so_name true]
       ++ [Call "sum_scalars" true;
           Stdout (scalar_report (Libc.strtof "1.2") (Libc.strtof "3.4") (Libc.strtof "5.6")
                     (sum_scalars (Libc.strtof "1.2") (Libc.strtof "3.4") (Libc.strtof "5.6")));
           Dlclose so_name],
     Some 0).
Proof.
  apply (library_sum_scalars_used "./binary_playground"
           ["--use-lib"; "--a"; "1.2"; "--b"; "3.4"; "--c"; "5.6"] so_present
           (set_c (Libc.strtof "5.6") (set_b (Libc.strtof "3.4")
              (set_a (Libc.strtof "1.2") (set_use_lib true default_config))))
           [] [Dlopen dylib_name false; Dlopen so_name true] so_name scalar_only_library
           sum_scalars).
  - vm_compute. reflexivity.
  - reflexivity.
  - reflexivity.
  - reflexivity.
Defined.

Lemma dispatch_no_attempts (prog : string) (cfg : config)
    (handle : option (string * library)) (t : list event) (st : Z) (file : string) :
  dispatch prog cfg handle = (t, Some st) -> attempts file t = [].
Proof.
  intros H. assert (attempts file (close_handle handle) = []) as Hc
    by (by destruct handle as [[libname l]|]).
  assert (forall rest, Forall is_stdout rest -> attempts file rest = []) as Hs.
  { induction 1 as [|e rest He _ IH]; [reflexivity|]. by destruct e. }
  apply dispatch_shape in H as [(_ & _ & ->)|(_ & b & rest & -> & Hr & _)].
  - unfold attempts in *. rewrite List.filter_app, Hc. reflexivity.
  - unfold attempts in *. simpl. rewrite List.filter_app, Hc, (Hs _ Hr). reflexivity.
Qed.

(** X24. With [--use-lib], [./libbinary_playground.dylib] comes first:
    when it opens, [./libbinary_playground.so] is never tried, and a run
    that returns has opened the [.dylib] once and closed it once. *)
Theorem dylib_preferred (prog : string) (args : list string) (env : dl_env)
    (cfg : config) (t1 t : list event) (l : library) (st : Z) :
  parse_options prog (getopt_long prog args optstring long_options) default_config
    = (t1, Parsed cfg) ->
  use_lib cfg = true ->
  dlopen env dylib_name = Some l ->
  main prog args env = (t, Some st) ->
  attempts so_name t = [] /\
  handle_events t = [Dlopen dylib_name true; Dlclose dylib_name].
Proof.
  intros Hparse Hu Hd. rewrite (main_after_options _ _ _ _ _ Hparse).
  unfold after_options, load_library. rewrite Hu, Hd.
  destruct (dispatch prog cfg (Some (dylib_name, l))) as [t3 st3] eqn:Hdisp.
  intros H. injection H as <- ->. split.
  - unfold attempts. simpl. apply (dispatch_no_attempts _ _ _ _ _ so_name Hdisp).
  - apply dispatch_releases in Hdisp. unfold handle_events in *. simpl. by rewrite Hdisp.
Qed.

(** X24, witness: [--use-lib --mode struct] where a [.dylib] is present. *)
Lemma dylib_preferred_witness :
  attempts so_name
    [Dlopen dylib_name true; Call "sum_structs" false;
     Stdout (struct_line +:+ Libc.nl); Dlclose dylib_name] = [] /\
  handle_events
    [Dlopen dylib_name true; Call "sum_structs" false;
     Stdout (struct_line +:+ Libc.nl); Dlclose dylib_name]
  = [Dlopen dylib_name true; Dlclose dylib_name].
Proof.
  apply (dylib_preferred "./binary_playground" ["--use-lib"; "--mode"; "struct"] dylib_present
           (set_mode "struct" (set_use_lib true default_config)) [] _ empty_library 0).
  - vm_compute. reflexivity.
  - reflexivity.
  - reflexivity.
  - vm_compute. reflexivity.
Defined.

(** X25. The [.so] is the fallback: when the [.dylib] does not open and
    the [.so] does, the [.dylib] was tried once, first, and a run that
    returns has opened the [.so] once and closed it once. *)
Theorem so_fallback (prog : string) (args : list string) (env : dl_env)
    (cfg : config) (t1 t : list event) (l : library) (st : Z) :
  parse_options prog (getopt_long prog args optstring long_options) default_config
    = (t1, Parsed cfg) ->
  use_lib cfg = true ->
  dlopen env dylib_name = None ->
  dlopen env so_name = Some l ->
  main prog args env = (t, Some st) ->
  attempts dylib_name t = [Dlopen dylib_name false] /\
  (exists t', t = Dlopen dylib_name false :: t') /\
  handle_events t = [Dlopen so_name true; Dlclose so_name].
Proof.
  intros Hparse Hu Hd Hs. rewrite (main_after_options _ _ _ _ _ Hparse).
  unfold after_options, load_library. rewrite Hu, Hd, Hs.
  destruct (dispatch prog cfg (Some (so_name, l))) as [t3 st3] eqn:Hdisp.
  intros H. injection H as <- ->. split; [|split].
  - unfold attempts. simpl.
    pose proof (dispatch_no_attempts _ _ _ _ _ dylib_name Hdisp) as Hn.
    unfold attempts in Hn. by rewrite Hn.
  - simpl. eauto.
  - apply dispatch_releases in Hdisp. unfold handle_events in *. simpl. by rewrite Hdisp.
Qed.

(** X25, witness: [--use-lib] where only the [.so] is present. *)
Lemma so_fallback_witness :
  attempts dylib_name
    [Dlopen dylib_name false; Dlopen so_name true; Call "sum_scalars" true;
     Stdout ("sum_scalars(1.000000, 2.000000, 3.000000) = 6.000000" +:+ Libc.nl);
     Dlclose so_name] = [Dlopen dylib_name false] /\
  (exists t',
     [Dlopen dylib_name false; Dlopen so_name true; Call "sum_scalars" true;
      Stdout ("sum_scalars(1.000000, 2.000000, 3.000000) = 6.000000" +:+ Libc.nl);
      Dlclose so_name] = Dlopen dylib_name false :: t') /\
  handle_events
    [Dlopen dylib_name false; Dlopen so_name true; Call "sum_scalars" true;
     Stdout ("sum_scalars(1.000000, 2.000000, 3.000000) = 6.000000" +:+ Libc.nl);
     Dlclose so_name] = [Dlopen so_name true; Dlclose so_name].
Proof.
  apply (so_fallback "./binary_playground" ["--use-lib"] so_present
           (set_use_lib true default_config) [] _ scalar_only_library 0).
  - vm_compute. reflexivity.
  - reflexivity.
  - reflexivity.
  - reflexivity.
  - vm_compute. reflexivity.
Defined.

(** X22, witness: an unknown option in an empty directory. *)
Lemma main_returns_witness :
  exists t st, main "./binary_playground" ["--use-lib"; "-x"] no_library = (t, Some st).
Proof.
  apply (main_returns "./binary_playground" ["--use-lib"; "-x"] no_library).
  intros file. reflexivity.
Defined.

End Libraries.

Section CommandLine.

Import Getopt Main RunSpec MoreSpec.

(** X20. Every run whose option loop ends in the [struct] mode without
    [--use-lib] prints [sum_structs: x=5, y=4.000000, z=4.000000] and
    returns 0, whatever else the command line holds. *)
Theorem struct_mode_line (prog : string) (args : list string) (env : dl_env)
    (cfg : config) (t1 : list event) :
  parse_options prog (getopt_long prog args optstring long_options) default_config
    = (t1, Parsed cfg) ->
  mode cfg = "struct" ->
  use_lib cfg = false ->
  main prog args env
  = ([Call "sum_structs" false; Stdout (struct_line +:+ Libc.nl)], Some 0).
Proof.
  intros Hparse Hmode Hu.
  rewrite (main_after_options _ _ _ _ _ Hparse). unfold after_options.
  rewrite Hu, load_library_off. unfold dispatch. rewrite Hmode. simpl.
  unfold run_struct, resolved. rewrite Hu. vm_compute. reflexivity.
Qed.

(** X20, witness: the mode given twice and scalars that are not used. *)
Lemma struct_mode_line_witness :
  main "./binary_playground" ["-a"; "7"; "--mode"; "vector"; "--mode=struct"] no_library
  = ([Call "sum_structs" false; Stdout (struct_line +:+ Libc.nl)], Some 0).
Proof.
  apply (struct_mode_line "./binary_playground"
           ["-a"; "7"; "--mode"; "vector"; "--mode=struct"] no_library
           (set_mode "struct" (set_mode "vector" (set_a (Libc.strtof "7") default_config))) []).
  - vm_compute. reflexivity.
  - reflexivity.
  - reflexivity.
Defined.

(** Every run whose option loop ends in the [scalar] mode without
    [--use-lib] prints one line, the three inputs and their built-in
    sum, each as [%f], and returns 0. *)
Theorem scalar_mode_line (prog : string) (args : list string) (env : dl_env)
    (cfg : config) (t1 : list event) :
  parse_options prog (getopt_long prog args optstring long_options) default_config
    = (t1, Parsed cfg) ->
  mode cfg = "scalar" ->
  use_lib cfg = false ->
  main prog args env
  = ([Call "sum_scalars" false;
      Stdout (scalar_report (a cfg) (b cfg) (c cfg) (sum_scalars (a cfg) (b cfg) (c cfg)))],
     Some 0).
Proof.
  intros Hparse Hmode Hu.
  rewrite (main_after_options _ _ _ _ _ Hparse). unfold after_options.
  rewrite Hu, load_library_off. unfold dispatch. rewrite Hmode. simpl.
  unfold run_scalar, resolved. rewrite Hu. reflexivity.
Qed.

(** For instance with no argument at all, the defaults 1, 2, 3. *)
Lemma scalar_mode_line_witness :
  main "./binary_playground" [] no_library
  = ([Call "sum_scalars" false;
      Stdout (scalar_report (f32_lit 10 (-1)) (f32_lit 20 (-1)) (f32_lit 30 (-1))
                (sum_scalars (f32_lit 10 (-1)) (f32_lit 20 (-1)) (f32_lit 30 (-1))))],
     Some 0).
Proof.
  apply (scalar_mode_line "./binary_playground" [] no_library default_config []);
    reflexivity.
Defined.

(** With no argument the program prints the sum of 1, 2 and 3. *)
Example default_run (prog : string) (env : dl_env) :
  main prog [] env
  = ([Call "sum_scalars" false;
      Stdout ("sum_scalars(1.000000, 2.000000, 3.000000) = 6.000000" +:+ Libc.nl)], Some 0).
Proof. vm_compute. reflexivity. Qed.

(** The spellings [getopt_long] takes for one option of the table. *)
Lemma getopt_mode_spellings (prog v : string) (rest : list string) :
  getopt_long prog ("--mode" :: v :: rest) optstring long_options
    = Opt "m" v :: getopt_long prog rest optstring long_options /\
  getopt_long prog ("-m" :: v :: rest) optstring long_options
    = Opt "m" v :: getopt_long prog rest optstring long_options /\
  getopt_long prog (("--mode=" +:+ v) :: rest) optstring long_options
    = Opt "m" v :: getopt_long prog rest optstring long_options /\
  getopt_long prog ("--m" :: v :: rest) optstring long_options
    = Opt "m" v :: getopt_long prog rest optstring long_options.
Proof. repeat split; reflexivity. Qed.

Lemma getopt_flag_spellings (prog : string) (rest : list string) :
  getopt_long prog ("--use-lib" :: rest) optstring long_options
    = Opt "u" EmptyString :: getopt_long prog rest optstring long_options /\
  getopt_long prog ("-u" :: rest) optstring long_options
    = Opt "u" EmptyString :: getopt_long prog rest optstring long_options /\
  getopt_long prog ("--help" :: rest) optstring long_options
    = Opt "h" EmptyString :: getopt_long prog rest optstring long_options /\
  getopt_long prog ("-h" :: rest) optstring long_options
    = Opt "h" EmptyString :: getopt_long prog rest optstring long_options.
Proof. repeat split; reflexivity. Qed.

(** X21. The option table gives every option a long and a short
    spelling that [main] cannot tell apart: [--mode v], [-m v],
    [--mode=v] and the abbreviation [--m v] start the same run, and so
    do [--use-lib] and [-u], and [--help] and [-h], whatever follows. *)
Theorem option_spellings (prog v : string) (rest : list string) (env : dl_env) :
  main prog ("-m" :: v :: rest) env = main prog ("--mode" :: v :: rest) env /\
  main prog (("--mode=" +:+ v) :: rest) env = main prog ("--mode" :: v :: rest) env /\
  main prog ("--m" :: v :: rest) env = main prog ("--mode" :: v :: rest) env /\
  main prog ("-u" :: rest) env = main prog ("--use-lib" :: rest) env /\
  main prog ("-h" :: rest) env = main prog ("--help" :: rest) env.
Proof.
  destruct (getopt_mode_spellings prog v rest) as (M1 & M2 & M3 & M4).
  destruct (getopt_flag_spellings prog rest) as (F1 & F2 & F3 & F4).
  unfold main. rewrite M1, M2, M3, M4, F1, F2, F3, F4. auto.
Qed.

End CommandLine.
